(** * The lip-sync performance engine (hook [useLipSyncEngine])

    A shallow embedding of the performance-driving engine: the seeded
    sequence generator, the viseme timeline synthesizer, the timeline
    sampler, the per-frame pose compositor and the playback / export
    controller.

    Numbers.  JavaScript numbers are modelled by the real numbers [R] of the
    Standard Library: [Math.sin], [Math.exp], [Math.sqrt], [Math.pow],
    [Math.floor], [Math.min] and [Math.max] are [sin], [exp], [sqrt], [pow],
    [Zfloor], [Rmin] and [Rmax].  Rounding of IEEE doubles, infinities and
    NaN are outside the model.

    Strings.  A JavaScript string is its sequence of UTF-16 code units.

    State.  The React refs and state cells of the hook are the fields of one
    record; the browser's table of pending animation-frame callbacks is kept
    beside it, so that "which clocks are armed" is a property of the state. *)

From Stdlib Require Import Reals Lra Lia ZArith List Bool Ascii String.
From Stdlib Require Import Zfloor Sorted.
Import ListNotations.

Local Open Scope R_scope.

(** ** Numbers *)

Module Num.

(** [Math.floor], as a number again. *)
Definition floor (x : R) : R := IZR (Zfloor x).

(** [const clamp = (value, min, max) => Math.min(Math.max(value, min), max)] *)
Definition clamp (value min max : R) : R := Rmin (Rmax value min) max.

(** [a >= b] as a test. *)
Definition geb (a b : R) : bool := if Rle_dec b a then true else false.

(** [a > b] as a test. *)
Definition gtb (a b : R) : bool := if Rlt_dec b a then true else false.

(** Truthiness of a number: [0] is falsy. *)
Definition truthy (a : R) : bool := if Req_dec_T a 0 then false else true.

End Num.
Export Num.

(** ** Strings as UTF-16 code units *)

Module Js.

Definition JsString : Type := list N.

(** A literal of ASCII characters. *)
Definition lit (s : string) : JsString :=
  List.map N_of_ascii (list_ascii_of_string s).

Local Open Scope N_scope.

(** The class [\s], which is also what [trim] strips: WhiteSpace and
    LineTerminator code units. *)
Definition isSpace (c : N) : bool :=
  ((9 <=? c) && (c <=? 13))
  || (c =? 32) || (c =? 160) || (c =? 5760)
  || ((8192 <=? c) && (c <=? 8202))
  || (c =? 8232) || (c =? 8233) || (c =? 8239) || (c =? 8287)
  || (c =? 12288) || (c =? 65279).

Definition space : N := 32.

(** [s.replace(/\s+/g, " ")]: every maximal run of white space becomes one
    space.  [inRun] tells that the previous code unit was white space. *)
Fixpoint replaceRuns (inRun : bool) (s : JsString) : JsString :=
  match s with
  | [] => []
  | c :: r =>
      if isSpace c
      then (if inRun then replaceRuns true r else space :: replaceRuns true r)
      else c :: replaceRuns false r
  end.

Fixpoint trimStart (s : JsString) : JsString :=
  match s with
  | [] => []
  | c :: r => if isSpace c then trimStart r else s
  end.

Definition trimEnd (s : JsString) : JsString := rev (trimStart (rev s)).

(** [s.trim()] *)
Definition trim (s : JsString) : JsString := trimEnd (trimStart s).

(** [s.split(" ")]: the pieces between single spaces; the empty string
    splits into one empty piece. *)
Fixpoint split (s : JsString) : list JsString :=
  match s with
  | [] => [[]]
  | c :: r =>
      if c =? space then [] :: split r
      else match split r with
           | w :: ws => (c :: w) :: ws
           | [] => [[c]]
           end
  end.

(** Truthiness of a string: the empty string is falsy. *)
Definition nonEmpty (s : JsString) : bool :=
  match s with [] => false | _ :: _ => true end.

(** [a || b] on strings. *)
Definition orElse (a b : JsString) : JsString := if nonEmpty a then a else b.

(** Membership of a code unit in a class given by an ASCII literal. *)
Definition inClass (cls : string) (c : N) : bool :=
  existsb (N.eqb c) (lit cls).

(** Number of matches of a one-character class in [s]
    ([s.match(/[...]/g).length] when there is a match). *)
Definition countClass (cls : string) (s : JsString) : nat :=
  List.length (filter (inClass cls) s).

End Js.
Export Js.

(** ** Words of a script *)

(** [getWords]: [text.replace(/\s+/g, " ").trim().split(" ").filter(Boolean)] *)
Definition getWords (text : JsString) : list JsString :=
  filter nonEmpty (split (trim (replaceRuns false text))).


(** ** Deterministic sequence generator *)

(** A computation that draws from a seeded generator: the closure variable
    [value] of [createSeeder] is threaded through. *)
Definition Rand (A : Type) : Type := R -> A * R.

Definition ret {A : Type} (a : A) : Rand A := fun value => (a, value).

Definition bind {A B : Type} (m : Rand A) (k : A -> Rand B) : Rand B :=
  fun value => let (a, value') := m value in k a value'.

Notation "x <- m ;; k" := (bind m (fun x => k))
  (at level 61, m at next level, right associativity).

(** [createSeeder(seed)]: the initial [value] of the closure. *)
Definition createSeeder (seed : R) : R := seed * 10000.

(** One call of the closure returned by [createSeeder]. *)
Definition random : Rand R :=
  fun value =>
    let value' := sin (value + 0.12345) * 43758.5453 in
    (value' - floor value', value').

(** Runs [f] on the elements of [l] from left to right. *)
Fixpoint forEach {A B : Type} (f : A -> Rand B) (l : list A) : Rand (list B) :=
  match l with
  | [] => ret []
  | a :: r => b <- f a ;; bs <- forEach f r ;; ret (b :: bs)
  end.

(** ** Data model *)

(** Modelled from the spec: the type [EmotionPreset] is imported from
    [@/lib/emotions], which is not part of the sources at hand; these are the
    numeric fields the engine reads (the spec's EmotionProfile without its
    colour). *)
Record EmotionPreset : Type := {
  mouthEnergy : R;
  handAmplitude : R;
  gazeIntensity : R;
  browLift : R
}.

Record VisemeFrame : Type := {
  time : R;
  mouth : R;
  width : R
}.

(** The object [{ frames, duration }] returned by [buildVisemeTimeline]. *)
Record Timeline : Type := {
  frames : list VisemeFrame;
  duration : R
}.

(** The pair [{ mouth, width }] read off a sample. *)
Record Viseme : Type := {
  visemeMouth : R;
  visemeWidth : R
}.

Definition visemeOf (f : VisemeFrame) : Viseme :=
  {| visemeMouth := mouth f; visemeWidth := width f |}.

(** ** Viseme timeline synthesizer *)

Definition estimateWordDuration (emotion : EmotionPreset) : R :=
  let base := 0.42 in
  let energyOffset := (mouthEnergy emotion - 0.5) * 0.2 in
  let handOffset := handAmplitude emotion * 0.05 in
  clamp (base - energyOffset - handOffset) 0.28 0.6.

(** The indices [0, 1, ...] visited by [for (i = 0; i < frameCount; i += 1)]
    when [frameCount = Math.floor(x)]. *)
Definition indicesBelow (x : R) : list nat := seq 0 (Z.to_nat (Zfloor x)).

(** [pattern.length ?? 1] of a global match: no match at all gives [null],
    hence [1]. *)
Definition matchesOrOne (n : nat) : R :=
  match n with O => 1 | S _ => INR n end.

Definition fallbackDuration : R := 2.5.

(** One frame of the loop of the empty-script branch. *)
Definition fallbackFrame (i : nat) : Rand VisemeFrame :=
  let t := INR i / 60 in
  m <- random ;;
  w <- random ;;
  ret {| time := t; mouth := 0.2 + m * 0.15; width := 0.3 + w * 0.15 |}.

(** One element of [words.map((word, index) => ...)]; a peak has the fields
    of a frame. *)
Definition peakOf (emotion : EmotionPreset) (wordDuration duration : R)
    (iw : nat * JsString) : Rand VisemeFrame :=
  let (index, word) := iw in
  let vowelWeight :=
    matchesOrOne (countClass "aeiouyAEIOUY" word) / INR (List.length word) in
  let consonantStrength := INR (countClass "pbmfvlPBMFVL" word) * 0.15 in
  let base := 0.45 + (mouthEnergy emotion - 0.5) * 0.4 in
  r1 <- random ;;
  let noise := (r1 - 0.5) * 0.25 in
  r2 <- random ;;
  ret {| time := clamp (INR index * wordDuration + r2 * 0.05) 0 duration;
         mouth := clamp (base + vowelWeight * 0.35 + consonantStrength + noise) 0 1;
         width := clamp (0.35 + vowelWeight * 0.2 + (mouthEnergy emotion - 0.5)) 0 1 |}.

(** Body of [for (const peak of peaks)]: the running [(mouth, width)]. *)
Definition addPeak (t : R) (acc : R * R) (peak : VisemeFrame) : R * R :=
  let diff := Rabs (t - time peak) in
  let influence := exp (- (diff ^ 2 / 0.08)) in
  (fst acc + mouth peak * influence, snd acc + width peak * influence * 0.7).

(** One frame of the main loop. *)
Definition synthFrame (peaks : list VisemeFrame) (frame : nat) : Rand VisemeFrame :=
  let t := INR frame / 60 in
  let acc := fold_left (addPeak t) peaks (0.12, 0.3) in
  r1 <- random ;;
  let mouth1 := fst acc * (0.55 + r1 * 0.1) in
  r2 <- random ;;
  let width1 := snd acc * (0.45 + r2 * 0.1) in
  ret {| time := t;
         mouth := clamp mouth1 0.05 1;
         width := clamp width1 0.05 0.95 |}.

Definition enumerate {A : Type} (l : list A) : list (nat * A) :=
  combine (seq 0 (List.length l)) l.

Definition buildVisemeTimeline (text : JsString) (emotion : EmotionPreset)
    (seed : R) : Timeline :=
  let words := getWords text in
  let value0 := createSeeder seed in
  match words with
  | [] =>
      let fs := fst (forEach fallbackFrame (indicesBelow (fallbackDuration * 60)) value0) in
      {| frames := fs; duration := fallbackDuration |}
  | _ :: _ =>
      let wordDuration := estimateWordDuration emotion in
      let duration := Rmax (INR (List.length words) * wordDuration + 1.2) 2 in
      let run :=
        peaks <- forEach (peakOf emotion wordDuration duration) (enumerate words) ;;
        forEach (synthFrame peaks) (indicesBelow (duration * 60)) in
      {| frames := fst (run value0); duration := duration |}
  end.

(** ** Timeline sampler *)

(** [timeline.findIndex(p)]: the first index where [p] holds, [-1] if none. *)
Fixpoint findIndexFrom {A : Type} (p : A -> bool) (i : Z) (l : list A) : Z :=
  match l with
  | [] => (-1)%Z
  | a :: r => if p a then i else findIndexFrom p (i + 1)%Z r
  end.

Definition findIndex {A : Type} (p : A -> bool) (l : list A) : Z :=
  findIndexFrom p 0%Z l.

(** [timeline[timeline.length - 1]], when there is one. *)
Definition lastFrame (timeline : list VisemeFrame) : option VisemeFrame :=
  nth_error timeline (List.length timeline - 1).

(** [a || 1] on numbers. *)
Definition orOne (a : R) : R := if truthy a then a else 1.

Definition sampleViseme (timeline : list VisemeFrame) (elapsed : R) : Viseme :=
  match lastFrame timeline with
  | None => {| visemeMouth := 0.1; visemeWidth := 0.3 |}
  | Some final =>
      let total := time final in
      if geb elapsed total then visemeOf final
      else
        let index := findIndex (fun frame => geb (time frame) elapsed) timeline in
        if (index <=? 0)%Z then visemeOf (hd final timeline)
        else
          let prev := nth (Z.to_nat (index - 1)) timeline final in
          let current := nth (Z.to_nat index) timeline final in
          let span := orOne (time current - time prev) in
          let weight := clamp ((elapsed - time prev) / span) 0 1 in
          {| visemeMouth := mouth prev + (mouth current - mouth prev) * weight;
             visemeWidth := width prev + (width current - width prev) * weight |}
  end.

(** ** Engine state *)

Inductive VoiceMode : Type := TextMode | AudioMode.

Record LipState : Type := {
  mouthOpen : R;
  mouthWidth : R;
  blink : R;
  eyebrowLift : R;
  headYaw : R;
  headPitch : R;
  headRoll : R;
  gazeX : R;
  gazeY : R;
  handLeft : R;
  handRight : R;
  bodySway : R
}.

Definition initialLipState : LipState :=
  {| mouthOpen := 0.1; mouthWidth := 0.1; blink := 0; eyebrowLift := 0;
     headYaw := 0; headPitch := 0; headRoll := 0; gazeX := 0; gazeY := 0;
     handLeft := 0; handRight := 0; bodySway := 0 |}.

(** The props of the hook that the engine reads ([avatar] is never read). *)
Record UseLipSyncEngineProps : Type := {
  emotion : EmotionPreset;
  script : JsString;
  seed : R
}.

(** [StartPreviewOptions]; an absent flag is [false], an absent mode [None]. *)
Record StartPreviewOptions : Type := {
  forceRestart : bool;
  sourceMode : option VoiceMode;
  fromExport : bool
}.

(** [ctx.state] of the audio context. *)
Inductive ContextState : Type := Suspended | Running.

(** The [<audio>] element, as far as the engine drives it. *)
Record AudioElement : Type := {
  paused : bool;
  currentTime : R;
  onended : bool
}.

Record Utterance : Type := {
  utteranceText : JsString;
  pitch : R;
  rate : R;
  volume : R
}.

(** The state cells and refs of the hook, followed by the part of the browser
    they act on: the animation-frame requests not yet run or cancelled, the
    next request id, the utterances handed to [speechSynthesis], and whether
    the promise of the export in progress is settled. *)
Record Engine : Type := {
  lipState : LipState;
  isSpeaking : bool;
  hasAudioLoaded : bool;
  ttsSupported : bool;
  modeRef : VoiceMode;
  rafRef : option nat;
  startTimeRef : R;
  visemeTimelineRef : list VisemeFrame;
  visemeDurationRef : R;
  exportResolveRef : bool;
  audioRef : option AudioElement;
  audioContextRef : option ContextState;
  analyserRef : bool;
  audioDataRef : bool;
  stageCanvasRef : bool;
  randomRef : R;
  ttsUtteranceRef : option Utterance;
  pendingFrames : list nat;
  nextFrameId : nat;
  speechQueue : list Utterance;
  exportSettled : bool
}.

(** What the platform decides: whether there is a [window], the state of a
    freshly made audio context, whether the recorder can be constructed for
    [video/webm;codecs=vp9], whether the promise of [audio.play()] fulfils,
    and the bytes the ffmpeg pipeline produces ([None] when any step of it
    throws). *)
Record Platform : Type := {
  hasWindow : bool;
  newContextState : ContextState;
  recorderSupported : bool;
  playFulfils : bool;
  transcode : list nat -> option (list nat)
}.

Definition set_lipState (v : LipState) (e : Engine) : Engine :=
  Build_Engine v (isSpeaking e) (hasAudioLoaded e) (ttsSupported e) (modeRef
    e) (rafRef e) (startTimeRef e) (visemeTimelineRef e) (visemeDurationRef
    e) (exportResolveRef e) (audioRef e) (audioContextRef e) (analyserRef e)
    (audioDataRef e) (stageCanvasRef e) (randomRef e) (ttsUtteranceRef e)
    (pendingFrames e) (nextFrameId e) (speechQueue e) (exportSettled e).

Definition set_isSpeaking (v : bool) (e : Engine) : Engine :=
  Build_Engine (lipState e) v (hasAudioLoaded e) (ttsSupported e) (modeRef
    e) (rafRef e) (startTimeRef e) (visemeTimelineRef e) (visemeDurationRef
    e) (exportResolveRef e) (audioRef e) (audioContextRef e) (analyserRef e)
    (audioDataRef e) (stageCanvasRef e) (randomRef e) (ttsUtteranceRef e)
    (pendingFrames e) (nextFrameId e) (speechQueue e) (exportSettled e).

Definition set_hasAudioLoaded (v : bool) (e : Engine) : Engine :=
  Build_Engine (lipState e) (isSpeaking e) v (ttsSupported e) (modeRef e)
    (rafRef e) (startTimeRef e) (visemeTimelineRef e) (visemeDurationRef e)
    (exportResolveRef e) (audioRef e) (audioContextRef e) (analyserRef e)
    (audioDataRef e) (stageCanvasRef e) (randomRef e) (ttsUtteranceRef e)
    (pendingFrames e) (nextFrameId e) (speechQueue e) (exportSettled e).

Definition set_ttsSupported (v : bool) (e : Engine) : Engine :=
  Build_Engine (lipState e) (isSpeaking e) (hasAudioLoaded e) v (modeRef e)
    (rafRef e) (startTimeRef e) (visemeTimelineRef e) (visemeDurationRef e)
    (exportResolveRef e) (audioRef e) (audioContextRef e) (analyserRef e)
    (audioDataRef e) (stageCanvasRef e) (randomRef e) (ttsUtteranceRef e)
    (pendingFrames e) (nextFrameId e) (speechQueue e) (exportSettled e).

Definition set_modeRef (v : VoiceMode) (e : Engine) : Engine :=
  Build_Engine (lipState e) (isSpeaking e) (hasAudioLoaded e) (ttsSupported
    e) v (rafRef e) (startTimeRef e) (visemeTimelineRef e)
    (visemeDurationRef e) (exportResolveRef e) (audioRef e) (audioContextRef
    e) (analyserRef e) (audioDataRef e) (stageCanvasRef e) (randomRef e)
    (ttsUtteranceRef e) (pendingFrames e) (nextFrameId e) (speechQueue e)
    (exportSettled e).

Definition set_rafRef (v : option nat) (e : Engine) : Engine :=
  Build_Engine (lipState e) (isSpeaking e) (hasAudioLoaded e) (ttsSupported
    e) (modeRef e) v (startTimeRef e) (visemeTimelineRef e)
    (visemeDurationRef e) (exportResolveRef e) (audioRef e) (audioContextRef
    e) (analyserRef e) (audioDataRef e) (stageCanvasRef e) (randomRef e)
    (ttsUtteranceRef e) (pendingFrames e) (nextFrameId e) (speechQueue e)
    (exportSettled e).

Definition set_startTimeRef (v : R) (e : Engine) : Engine :=
  Build_Engine (lipState e) (isSpeaking e) (hasAudioLoaded e) (ttsSupported
    e) (modeRef e) (rafRef e) v (visemeTimelineRef e) (visemeDurationRef e)
    (exportResolveRef e) (audioRef e) (audioContextRef e) (analyserRef e)
    (audioDataRef e) (stageCanvasRef e) (randomRef e) (ttsUtteranceRef e)
    (pendingFrames e) (nextFrameId e) (speechQueue e) (exportSettled e).

Definition set_visemeTimelineRef (v : list VisemeFrame) (e : Engine) : Engine :=
  Build_Engine (lipState e) (isSpeaking e) (hasAudioLoaded e) (ttsSupported
    e) (modeRef e) (rafRef e) (startTimeRef e) v (visemeDurationRef e)
    (exportResolveRef e) (audioRef e) (audioContextRef e) (analyserRef e)
    (audioDataRef e) (stageCanvasRef e) (randomRef e) (ttsUtteranceRef e)
    (pendingFrames e) (nextFrameId e) (speechQueue e) (exportSettled e).

Definition set_visemeDurationRef (v : R) (e : Engine) : Engine :=
  Build_Engine (lipState e) (isSpeaking e) (hasAudioLoaded e) (ttsSupported
    e) (modeRef e) (rafRef e) (startTimeRef e) (visemeTimelineRef e) v
    (exportResolveRef e) (audioRef e) (audioContextRef e) (analyserRef e)
    (audioDataRef e) (stageCanvasRef e) (randomRef e) (ttsUtteranceRef e)
    (pendingFrames e) (nextFrameId e) (speechQueue e) (exportSettled e).

Definition set_exportResolveRef (v : bool) (e : Engine) : Engine :=
  Build_Engine (lipState e) (isSpeaking e) (hasAudioLoaded e) (ttsSupported
    e) (modeRef e) (rafRef e) (startTimeRef e) (visemeTimelineRef e)
    (visemeDurationRef e) v (audioRef e) (audioContextRef e) (analyserRef e)
    (audioDataRef e) (stageCanvasRef e) (randomRef e) (ttsUtteranceRef e)
    (pendingFrames e) (nextFrameId e) (speechQueue e) (exportSettled e).

Definition set_audioRef (v : option AudioElement) (e : Engine) : Engine :=
  Build_Engine (lipState e) (isSpeaking e) (hasAudioLoaded e) (ttsSupported
    e) (modeRef e) (rafRef e) (startTimeRef e) (visemeTimelineRef e)
    (visemeDurationRef e) (exportResolveRef e) v (audioContextRef e)
    (analyserRef e) (audioDataRef e) (stageCanvasRef e) (randomRef e)
    (ttsUtteranceRef e) (pendingFrames e) (nextFrameId e) (speechQueue e)
    (exportSettled e).

Definition set_audioContextRef (v : option ContextState) (e : Engine) : Engine :=
  Build_Engine (lipState e) (isSpeaking e) (hasAudioLoaded e) (ttsSupported
    e) (modeRef e) (rafRef e) (startTimeRef e) (visemeTimelineRef e)
    (visemeDurationRef e) (exportResolveRef e) (audioRef e) v (analyserRef
    e) (audioDataRef e) (stageCanvasRef e) (randomRef e) (ttsUtteranceRef e)
    (pendingFrames e) (nextFrameId e) (speechQueue e) (exportSettled e).

Definition set_analyserRef (v : bool) (e : Engine) : Engine :=
  Build_Engine (lipState e) (isSpeaking e) (hasAudioLoaded e) (ttsSupported
    e) (modeRef e) (rafRef e) (startTimeRef e) (visemeTimelineRef e)
    (visemeDurationRef e) (exportResolveRef e) (audioRef e) (audioContextRef
    e) v (audioDataRef e) (stageCanvasRef e) (randomRef e) (ttsUtteranceRef
    e) (pendingFrames e) (nextFrameId e) (speechQueue e) (exportSettled e).

Definition set_audioDataRef (v : bool) (e : Engine) : Engine :=
  Build_Engine (lipState e) (isSpeaking e) (hasAudioLoaded e) (ttsSupported
    e) (modeRef e) (rafRef e) (startTimeRef e) (visemeTimelineRef e)
    (visemeDurationRef e) (exportResolveRef e) (audioRef e) (audioContextRef
    e) (analyserRef e) v (stageCanvasRef e) (randomRef e) (ttsUtteranceRef
    e) (pendingFrames e) (nextFrameId e) (speechQueue e) (exportSettled e).

Definition set_stageCanvasRef (v : bool) (e : Engine) : Engine :=
  Build_Engine (lipState e) (isSpeaking e) (hasAudioLoaded e) (ttsSupported
    e) (modeRef e) (rafRef e) (startTimeRef e) (visemeTimelineRef e)
    (visemeDurationRef e) (exportResolveRef e) (audioRef e) (audioContextRef
    e) (analyserRef e) (audioDataRef e) v (randomRef e) (ttsUtteranceRef e)
    (pendingFrames e) (nextFrameId e) (speechQueue e) (exportSettled e).

Definition set_randomRef (v : R) (e : Engine) : Engine :=
  Build_Engine (lipState e) (isSpeaking e) (hasAudioLoaded e) (ttsSupported
    e) (modeRef e) (rafRef e) (startTimeRef e) (visemeTimelineRef e)
    (visemeDurationRef e) (exportResolveRef e) (audioRef e) (audioContextRef
    e) (analyserRef e) (audioDataRef e) (stageCanvasRef e) v
    (ttsUtteranceRef e) (pendingFrames e) (nextFrameId e) (speechQueue e)
    (exportSettled e).

Definition set_ttsUtteranceRef (v : option Utterance) (e : Engine) : Engine :=
  Build_Engine (lipState e) (isSpeaking e) (hasAudioLoaded e) (ttsSupported
    e) (modeRef e) (rafRef e) (startTimeRef e) (visemeTimelineRef e)
    (visemeDurationRef e) (exportResolveRef e) (audioRef e) (audioContextRef
    e) (analyserRef e) (audioDataRef e) (stageCanvasRef e) (randomRef e) v
    (pendingFrames e) (nextFrameId e) (speechQueue e) (exportSettled e).

Definition set_pendingFrames (v : list nat) (e : Engine) : Engine :=
  Build_Engine (lipState e) (isSpeaking e) (hasAudioLoaded e) (ttsSupported
    e) (modeRef e) (rafRef e) (startTimeRef e) (visemeTimelineRef e)
    (visemeDurationRef e) (exportResolveRef e) (audioRef e) (audioContextRef
    e) (analyserRef e) (audioDataRef e) (stageCanvasRef e) (randomRef e)
    (ttsUtteranceRef e) v (nextFrameId e) (speechQueue e) (exportSettled e).

Definition set_nextFrameId (v : nat) (e : Engine) : Engine :=
  Build_Engine (lipState e) (isSpeaking e) (hasAudioLoaded e) (ttsSupported
    e) (modeRef e) (rafRef e) (startTimeRef e) (visemeTimelineRef e)
    (visemeDurationRef e) (exportResolveRef e) (audioRef e) (audioContextRef
    e) (analyserRef e) (audioDataRef e) (stageCanvasRef e) (randomRef e)
    (ttsUtteranceRef e) (pendingFrames e) v (speechQueue e) (exportSettled
    e).

Definition set_speechQueue (v : list Utterance) (e : Engine) : Engine :=
  Build_Engine (lipState e) (isSpeaking e) (hasAudioLoaded e) (ttsSupported
    e) (modeRef e) (rafRef e) (startTimeRef e) (visemeTimelineRef e)
    (visemeDurationRef e) (exportResolveRef e) (audioRef e) (audioContextRef
    e) (analyserRef e) (audioDataRef e) (stageCanvasRef e) (randomRef e)
    (ttsUtteranceRef e) (pendingFrames e) (nextFrameId e) v (exportSettled
    e).

Definition set_exportSettled (v : bool) (e : Engine) : Engine :=
  Build_Engine (lipState e) (isSpeaking e) (hasAudioLoaded e) (ttsSupported
    e) (modeRef e) (rafRef e) (startTimeRef e) (visemeTimelineRef e)
    (visemeDurationRef e) (exportResolveRef e) (audioRef e) (audioContextRef
    e) (analyserRef e) (audioDataRef e) (stageCanvasRef e) (randomRef e)
    (ttsUtteranceRef e) (pendingFrames e) (nextFrameId e) (speechQueue e) v.

(** ** Clock, speech and pose primitives *)

(** [cancelAnimationFrame(id)] *)
Definition cancelAnimationFrame (id : nat) (st : Engine) : Engine :=
  set_pendingFrames (remove Nat.eq_dec id (pendingFrames st)) st.

(** [requestAnimationFrame(updateLoop)]: the id handed out, and the state. *)
Definition requestAnimationFrame (st : Engine) : nat * Engine :=
  let id := nextFrameId st in
  (id, set_nextFrameId (S id) (set_pendingFrames (pendingFrames st ++ [id]) st)).

(** [rafRef.current = requestAnimationFrame(updateLoop)] *)
Definition armClock (st : Engine) : Engine :=
  let (id, st1) := requestAnimationFrame st in
  set_rafRef (Some id) st1.

Definition cleanupRAF (st : Engine) : Engine :=
  match rafRef st with
  | Some (S _ as id) => set_rafRef None (cancelAnimationFrame id st)
  | _ => st
  end.

Definition stopSpeechSynthesis (st : Engine) : Engine :=
  if negb (ttsSupported st) then st
  else match ttsUtteranceRef st with
       | Some _ => set_ttsUtteranceRef None (set_speechQueue [] st)
       | None => st
       end.

Definition resetLipState (st : Engine) : Engine :=
  let prev := lipState st in
  set_lipState
    {| mouthOpen := 0.12; mouthWidth := 0.2; blink := blink prev;
       eyebrowLift := eyebrowLift prev; headYaw := headYaw prev;
       headPitch := headPitch prev; headRoll := headRoll prev;
       gazeX := gazeX prev; gazeY := gazeY prev;
       handLeft := 0; handRight := 0; bodySway := 0 |} st.

Definition shutdownPlayback (st : Engine) : Engine :=
  let st := cleanupRAF st in
  let st := stopSpeechSynthesis st in
  let st :=
    match audioRef st with
    | Some a =>
        set_audioRef
          (Some {| paused := true; currentTime := 0; onended := onended a |}) st
    | None => st
    end in
  let st := set_isSpeaking false st in
  let st := if exportResolveRef st then set_exportSettled true st else st in
  set_exportResolveRef false st.

Definition stopPreview (st : Engine) : Engine :=
  resetLipState (shutdownPlayback st).

Definition ensureAudioContext (pf : Platform) (st : Engine)
    : option ContextState * Engine :=
  if negb (hasWindow pf) then (None, st)
  else match audioContextRef st with
       | Some c => (Some c, st)
       | None =>
           let c := newContextState pf in
           (Some c, set_audioContextRef (Some c) st)
       end.

(** Whether an analyser is returned, and the state. *)
Definition ensureAnalyser (pf : Platform) (st : Engine) : bool * Engine :=
  let (ctx, st) := ensureAudioContext pf st in
  match ctx, audioRef st with
  | Some _, Some _ =>
      if analyserRef st then (true, st)
      else (true, set_analyserRef true (set_audioDataRef true st))
  | _, _ => (false, st)
  end.

(** [loadAudioFile(file)]: the element takes the new source and is reset by
    [audio.load()]. *)
Definition loadAudioFile (pf : Platform) (st : Engine) : Engine :=
  if negb (hasWindow pf) then st
  else match audioRef st with
       | None => st
       | Some a =>
           set_hasAudioLoaded true
             (set_audioRef
                (Some {| paused := true; currentTime := 0;
                         onended := onended a |}) st)
       end.

(** [registerStageCanvas(canvas)]; [present] tells whether it is non-null. *)
Definition registerStageCanvas (present : bool) (st : Engine) : Engine :=
  set_stageCanvasRef present st.

(** The engine after the hook is mounted in a browser: the mount effects
    have created the audio element, found out whether speech synthesis is
    there ([tts]) and reseeded the generator of the clock. *)
Definition mounted (props : UseLipSyncEngineProps) (tts : bool) : Engine :=
  {| lipState := initialLipState;
     isSpeaking := false;
     hasAudioLoaded := false;
     ttsSupported := tts;
     modeRef := TextMode;
     rafRef := None;
     startTimeRef := 0;
     visemeTimelineRef := [];
     visemeDurationRef := 0;
     exportResolveRef := false;
     audioRef := Some {| paused := true; currentTime := 0; onended := false |};
     audioContextRef := None;
     analyserRef := false;
     audioDataRef := false;
     stageCanvasRef := false;
     randomRef := createSeeder (seed props + mouthEnergy (emotion props) * 100);
     ttsUtteranceRef := None;
     pendingFrames := [];
     nextFrameId := 1;
     speechQueue := [];
     exportSettled := false |}.

(** ** Pose compositor *)

(** The audio driver of [updateLoop]: [samples] is the content of the byte
    array after [getByteTimeDomainData]. *)
Definition audioViseme (emotion : EmotionPreset) (samples : list Z) : Viseme :=
  let sum :=
    fold_left
      (fun sum b => let value := (IZR b - 128) / 128 in sum + value * value)
      samples 0 in
  let rms := sqrt (sum / INR (List.length samples)) in
  {| visemeMouth := clamp (rms * 4 + mouthEnergy emotion * 0.35) 0.05 1;
     visemeWidth := clamp (rms * 2.8 + 0.25) 0.05 0.9 |}.

(** The channels computed by [updateLoop] from the driver's pair, in the
    order in which the generator is drawn from. *)
Definition composePose (props : UseLipSyncEngineProps) (timestamp : R)
    (viseme : Viseme) : Rand LipState :=
  let emotion := emotion props in
  let seed := seed props in
  let mouth := visemeMouth viseme in
  let width := visemeWidth viseme in
  r0 <- random ;;
  let blinkSpeed := 0.45 + r0 * 0.35 in
  r1 <- random ;;
  let blinkPhase := sin (timestamp / (1300 + r1 * 400) + seed) in
  r2 <- random ;;
  let blink := clamp (Rabs blinkPhase ^ 12 * (0.8 + r2 * 0.4)) 0 1 in
  let emotionInfluence := handAmplitude emotion in
  let headYaw :=
    sin (timestamp / (2300 + gazeIntensity emotion * 300) + seed) * 0.25
    + mouth * 0.08 * (gazeIntensity emotion + 0.2) in
  r3 <- random ;;
  let headPitch :=
    sin (timestamp / (3100 + r3 * 500)) * 0.18
    + (browLift emotion * 0.15 - 0.05) in
  r4 <- random ;;
  let headRoll := sin (timestamp / (4100 + r4 * 500)) * 0.14 in
  r5 <- random ;;
  let gazeX :=
    sin (timestamp / (1600 + r5 * 600)) * 0.45 * (gazeIntensity emotion + 0.3) in
  r6 <- random ;;
  let gazeY :=
    sin (timestamp / (2100 + r6 * 700) + 0.5) * 0.35
    * (gazeIntensity emotion + 0.2) in
  r7 <- random ;;
  let handLeft :=
    mouth * (0.5 + emotionInfluence) + sin (timestamp / 800 + r7 * 2) * 0.2 in
  r8 <- random ;;
  let handRight :=
    mouth * (0.45 + emotionInfluence * 1.1)
    + sin (timestamp / 900 + r8 * 2) * 0.25 in
  let bodySway := sin (timestamp / 2500) * 0.25 + mouth * 0.2 in
  ret {| mouthOpen := mouth;
         mouthWidth := width;
         blink := blink * (1 - gazeIntensity emotion * 0.2);
         eyebrowLift := browLift emotion + mouth * 0.25;
         headYaw := headYaw;
         headPitch := headPitch;
         headRoll := headRoll;
         gazeX := gazeX;
         gazeY := gazeY;
         handLeft := handLeft;
         handRight := handRight;
         bodySway := bodySway |}.

(** The driver's pair for this tick, or [None] when the text session is over
    ([shutdownPlayback(); return]). *)
Definition driverSignal (props : UseLipSyncEngineProps) (timestamp : R)
    (samples : list Z) (st : Engine) : option Viseme :=
  let elapsed := (timestamp - startTimeRef st) / 1000 in
  match modeRef st, analyserRef st && audioDataRef st with
  | AudioMode, true => Some (audioViseme (emotion props) samples)
  | _, _ =>
      let viseme := sampleViseme (visemeTimelineRef st) elapsed in
      if truthy (visemeDurationRef st)
         && gtb elapsed (visemeDurationRef st + 0.4)
      then None
      else Some viseme
  end.

Definition updateLoop (props : UseLipSyncEngineProps) (timestamp : R)
    (samples : list Z) (st : Engine) : Engine :=
  match driverSignal props timestamp samples st with
  | None => shutdownPlayback st
  | Some viseme =>
      let (pose, value') := composePose props timestamp viseme (randomRef st) in
      armClock (set_lipState pose (set_randomRef value' st))
  end.

(** ** Playback controller *)

(** Where a call of [startPreview] stands after a run: it has returned, or it
    is suspended at [await ctx.resume()] or at [await audio.play()]. *)
Inductive Suspension : Type := Returned | AwaitResume | AwaitPlay.

Definition defaultPhrase : JsString := lit "Hello, the stage is ready.".

(** The text spoken and synthesized: [script.trim() || "Hello, ..."]. *)
Definition spokenText (props : UseLipSyncEngineProps) : JsString :=
  orElse (trim (script props)) defaultPhrase.

Definition makeUtterance (props : UseLipSyncEngineProps) (text : JsString)
    : Utterance :=
  let emotion := emotion props in
  let pitchBase := 1 + browLift emotion * 0.5 in
  let rateBase := 1 + (mouthEnergy emotion - 0.5) * 0.4 in
  let volumeBase := clamp (0.8 + handAmplitude emotion * 0.3) 0.4 1 in
  {| utteranceText := text;
     pitch := clamp pitchBase 0.6 1.6;
     rate := clamp rateBase 0.7 1.5;
     volume := volumeBase |}.

(** From [const audio = audioRef.current] to [await audio.play()]. *)
Definition startPreviewPlay (st : Engine) : Suspension * Engine :=
  match audioRef st with
  | None => (Returned, st)
  | Some a =>
      (AwaitPlay,
       set_audioRef
         (Some {| paused := false; currentTime := 0; onended := onended a |}) st)
  end.

(** The text branch of [startPreview]; it has no [await]. *)
Definition startPreviewText (props : UseLipSyncEngineProps) (st : Engine)
    : Engine :=
  if negb (ttsSupported st) then st
  else
    let st := stopSpeechSynthesis st in
    let text := spokenText props in
    let timeline := buildVisemeTimeline text (emotion props) (seed props) in
    let st := set_visemeTimelineRef (frames timeline) st in
    let st := set_visemeDurationRef (duration timeline) st in
    let utterance := makeUtterance props text in
    let st := set_ttsUtteranceRef (Some utterance) st in
    let st := set_speechQueue [utterance] st in
    let st := set_isSpeaking true st in
    armClock st.

(** [startPreview(options)] at time [now = performance.now()], up to its
    return or its first [await]. *)
Definition startPreviewEnter (pf : Platform) (props : UseLipSyncEngineProps)
    (options : StartPreviewOptions) (now : R) (st : Engine)
    : Suspension * Engine :=
  let mode :=
    match sourceMode options with Some m => m | None => modeRef st end in
  let st := set_modeRef mode st in
  let st := if fromExport options then st else resetLipState st in
  if negb (forceRestart options) && isSpeaking st then (Returned, st)
  else
    let st := cleanupRAF st in
    let st := set_startTimeRef now st in
    match mode with
    | AudioMode =>
        let (analyser, st) := ensureAnalyser pf st in
        if negb analyser || negb (hasAudioLoaded st) then (Returned, st)
        else match audioContextRef st with
             | Some Suspended => (AwaitResume, st)
             | _ => startPreviewPlay st
             end
    | TextMode => (Returned, startPreviewText props st)
    end.

(** After [await audio.play()] has fulfilled. *)
Definition startPreviewPlayed (st : Engine) : Engine :=
  let st := set_isSpeaking true st in
  let st := armClock st in
  match audioRef st with
  | Some a =>
      set_audioRef
        (Some {| paused := paused a; currentTime := currentTime a;
                 onended := true |}) st
  | None => st
  end.

(** A suspended call goes on when the promise it awaits fulfils. *)
Definition resume (k : Suspension) (st : Engine) : Suspension * Engine :=
  match k with
  | Returned => (Returned, st)
  | AwaitResume => startPreviewPlay (set_audioContextRef (Some Running) st)
  | AwaitPlay => (Returned, startPreviewPlayed st)
  end.

(** What the browser and the user do between two runs of engine code. *)
Inductive Event : Type :=
  | Frame (id : nat) (timestamp : R) (samples : list Z)
  | UtteranceEnd
  | AudioEnded
  | StopPreview.

Definition memId (id : nat) (l : list nat) : bool := existsb (Nat.eqb id) l.

Definition handle (props : UseLipSyncEngineProps) (ev : Event) (st : Engine)
    : Engine :=
  match ev with
  | Frame id timestamp samples =>
      if memId id (pendingFrames st)
      then updateLoop props timestamp samples (cancelAnimationFrame id st)
      else st
  | UtteranceEnd =>
      match speechQueue st with
      | [] => st
      | _ :: q => shutdownPlayback (set_speechQueue q st)
      end
  | AudioEnded =>
      match audioRef st with
      | Some a => if onended a && negb (paused a) then shutdownPlayback st else st
      | None => st
      end
  | StopPreview => stopPreview st
  end.

Definition handleAll (props : UseLipSyncEngineProps) (evs : list Event)
    (st : Engine) : Engine :=
  fold_left (fun st ev => handle props ev st) evs st.

(** *** Interleaved calls *)

(** The engine with the calls of [startPreview] that are suspended. *)
Record World : Type := {
  engine : Engine;
  suspended : list Suspension
}.

Inductive Action : Type :=
  | Call (options : StartPreviewOptions) (now : R)
  | Settle (n : nat)
  | Occur (ev : Event).

Definition park (k : Suspension) (l : list Suspension) : list Suspension :=
  match k with Returned => l | _ => l ++ [k] end.

Fixpoint dropNth {A : Type} (n : nat) (l : list A) : list A :=
  match n, l with
  | _, [] => []
  | O, _ :: r => r
  | S m, a :: r => a :: dropNth m r
  end.

Definition act (pf : Platform) (props : UseLipSyncEngineProps) (a : Action)
    (w : World) : World :=
  match a with
  | Call options now =>
      let (k, st) := startPreviewEnter pf props options now (engine w) in
      {| engine := st; suspended := park k (suspended w) |}
  | Settle n =>
      match nth_error (suspended w) n with
      | Some k =>
          let (k', st) := resume k (engine w) in
          {| engine := st; suspended := park k' (dropNth n (suspended w)) |}
      | None => w
      end
  | Occur ev => {| engine := handle props ev (engine w); suspended := suspended w |}
  end.

Definition actAll (pf : Platform) (props : UseLipSyncEngineProps)
    (l : list Action) (w : World) : World :=
  fold_left (fun w a => act pf props a w) l w.

(** ** Export *)

(** How an asynchronous operation ends. *)
Inductive Outcome (A : Type) : Type :=
  | Fulfilled (a : A)
  | Rejected
  | NeverSettles.

Arguments Fulfilled {A} a.
Arguments Rejected {A}.
Arguments NeverSettles {A}.

(** What happens while a call of [startPreview] is suspended. *)
Record Gaps : Type := {
  duringResume : list Event;
  duringPlay : list Event
}.

(** A whole call of [startPreview], awaited by its caller. *)
Definition startPreview (pf : Platform) (props : UseLipSyncEngineProps)
    (options : StartPreviewOptions) (now : R) (gaps : Gaps) (st : Engine)
    : Outcome unit * Engine :=
  let afterPlay (st : Engine) : Outcome unit * Engine :=
    let st := handleAll props (duringPlay gaps) st in
    if playFulfils pf then (Fulfilled tt, startPreviewPlayed st)
    else (Rejected, st) in
  match startPreviewEnter pf props options now st with
  | (Returned, st) => (Fulfilled tt, st)
  | (AwaitPlay, st) => afterPlay st
  | (AwaitResume, st) =>
      let st := handleAll props (duringResume gaps) st in
      match resume AwaitResume st with
      | (AwaitPlay, st) => afterPlay st
      | (_, st) => (Fulfilled tt, st)
      end
  end.

Inductive MimeType : Type := VideoWebm | VideoMp4.

(** A blob: its type and the sizes of its parts. *)
Record Blob : Type := {
  blobType : MimeType;
  blobParts : list nat
}.

(** [convertWebmToMp4]: any failure inside its [try] gives the webm back. *)
Definition convertWebmToMp4 (pf : Platform) (webmBlob : Blob) : Blob :=
  match transcode pf (blobParts webmBlob) with
  | Some data => {| blobType := VideoMp4; blobParts := data |}
  | None => webmBlob
  end.

Definition exportOptions : StartPreviewOptions :=
  {| forceRestart := true; sourceMode := None; fromExport := true |}.

(** *** Export among other calls *)

(** What can happen while a call of [exportVideo] waits: an action on the
    engine; another call of [exportVideo] that runs up to its first
    [await]; or a bare [shutdownPlayback()], which is what a call of
    [exportVideo] begun earlier does when its own capture window ends, and
    what the cleanup of the hook's effect does. *)
Inductive Step : Type :=
  | Do (a : Action)
  | Export (now : R)
  | Shutdown.

(** The resolver of the promise a call of [exportVideo] has made, seen from
    that call: it is still the one held in [exportResolveRef] (and
    [exportSettled] tells whether the promise is settled), or another call
    has overwritten the ref and the promise stays as it was then. *)
Inductive Resolver : Type :=
  | Mine
  | Overwritten (settled : bool).

Definition withEngine (st : Engine) (w : World) : World :=
  {| engine := st; suspended := suspended w |}.

(** Whether a call of [exportVideo] gets as far as storing its resolver. *)
Definition reachesRecorder (pf : Platform) (st : Engine) : bool :=
  hasWindow pf && stageCanvasRef st && recorderSupported pf.

(** Another call of [exportVideo], from its start to its
    [await startPreview(...)]. *)
Definition beginExport (pf : Platform) (props : UseLipSyncEngineProps)
    (now : R) (w : World) : World :=
  if reachesRecorder pf (engine w)
  then
    let st := set_exportSettled false (set_exportResolveRef true (engine w)) in
    let (k, st) := startPreviewEnter pf props exportOptions now st in
    {| engine := st; suspended := park k (suspended w) |}
  else w.

Definition step (pf : Platform) (props : UseLipSyncEngineProps) (s : Step)
    (rw : Resolver * World) : Resolver * World :=
  let (r, w) := rw in
  match s with
  | Do a => (r, act pf props a w)
  | Export now =>
      (match r with
       | Mine =>
           if reachesRecorder pf (engine w)
           then Overwritten (exportSettled (engine w))
           else Mine
       | Overwritten settled => Overwritten settled
       end,
       beginExport pf props now w)
  | Shutdown => (r, withEngine (shutdownPlayback (engine w)) w)
  end.

Definition stepAll (pf : Platform) (props : UseLipSyncEngineProps)
    (l : list Step) (rw : Resolver * World) : Resolver * World :=
  fold_left (fun rw s => step pf props s rw) l rw.

(** What happens while the exporting call's own [startPreview] is
    suspended. *)
Record Pauses : Type := {
  whileResuming : list Step;
  whilePlaying : list Step
}.

(** [await startPreview(options)] inside [exportVideo]. *)
Definition awaitStartPreview (pf : Platform) (props : UseLipSyncEngineProps)
    (options : StartPreviewOptions) (now : R) (pauses : Pauses)
    (r : Resolver) (w : World) : Outcome unit * (Resolver * World) :=
  let afterPlay (rw : Resolver * World) : Outcome unit * (Resolver * World) :=
    let rw := stepAll pf props (whilePlaying pauses) rw in
    if playFulfils pf
    then (Fulfilled tt,
          (fst rw, withEngine (startPreviewPlayed (engine (snd rw))) (snd rw)))
    else (Rejected, rw) in
  match startPreviewEnter pf props options now (engine w) with
  | (Returned, st) => (Fulfilled tt, (r, withEngine st w))
  | (AwaitPlay, st) => afterPlay (r, withEngine st w)
  | (AwaitResume, st) =>
      let rw := stepAll pf props (whileResuming pauses) (r, withEngine st w) in
      match resume AwaitResume (engine (snd rw)) with
      | (AwaitPlay, st) => afterPlay (fst rw, withEngine st (snd rw))
      | (_, st) => (Fulfilled tt, (fst rw, withEngine st (snd rw)))
      end
  end.

(** [exportVideo()]: [pauses] and [window] are what happens while the session
    starts and during the capture window of [EXPORT_DURATION_MS]; [recorded]
    are the sizes of the chunks the recorder delivers.  The call's own
    [exportPromise] is settled when its resolver has been called, which
    [shutdownPlayback] does only for the resolver held in
    [exportResolveRef]. *)
Definition exportVideo (pf : Platform) (props : UseLipSyncEngineProps)
    (now : R) (pauses : Pauses) (window : list Step) (recorded : list nat)
    (w : World) : Outcome (option Blob) * World :=
  if negb (hasWindow pf) then (Fulfilled None, w)
  else if negb (stageCanvasRef (engine w)) then (Fulfilled None, w)
  else if negb (recorderSupported pf) then (Rejected, w)
  else
    let w :=
      withEngine
        (set_exportSettled false (set_exportResolveRef true (engine w))) w in
    match awaitStartPreview pf props exportOptions now pauses Mine w with
    | (Fulfilled _, rw) =>
        let (r, w) := stepAll pf props window rw in
        let w := withEngine (shutdownPlayback (engine w)) w in
        let settled :=
          match r with
          | Mine => exportSettled (engine w)
          | Overwritten settled => settled
          end in
        if settled
        then
          let chunks := filter (fun size => Nat.ltb 0 size) recorded in
          let webmBlob := {| blobType := VideoWebm; blobParts := chunks |} in
          (Fulfilled (Some (convertWebmToMp4 pf webmBlob)), w)
        else (NeverSettles, w)
    | (Rejected, rw) => (Rejected, snd rw)
    | (NeverSettles, rw) => (NeverSettles, snd rw)
    end.

(** ** Generators as closures *)







(** ** Ranges and sample inputs used in the statements *)

(** The range of a synthesized frame. *)
Definition frameInRange (f : VisemeFrame) : Prop :=
  0.05 <= mouth f <= 1 /\ 0.05 <= width f <= 0.95.

(** An emotion profile with its four numeric fields in [0, 1]. *)
Definition emotionInRange (e : EmotionPreset) : Prop :=
  0 <= mouthEnergy e <= 1 /\ 0 <= handAmplitude e <= 1
  /\ 0 <= gazeIntensity e <= 1 /\ 0 <= browLift e <= 1.

Definition calm : EmotionPreset :=
  {| mouthEnergy := 0.5; handAmplitude := 0; gazeIntensity := 0.5;
     browLift := 0.5 |}.

Definition visemeInRange (v : Viseme) : Prop :=
  0.05 <= visemeMouth v <= 1 /\ 0.05 <= visemeWidth v <= 0.95.

(** No channel exceeds 1 in magnitude. *)
Definition poseWithinUnit (p : LipState) : Prop :=
  Rabs (mouthOpen p) <= 1 /\ Rabs (mouthWidth p) <= 1 /\ Rabs (blink p) <= 1
  /\ Rabs (eyebrowLift p) <= 1 /\ Rabs (headYaw p) <= 1
  /\ Rabs (headPitch p) <= 1 /\ Rabs (headRoll p) <= 1
  /\ Rabs (gazeX p) <= 1 /\ Rabs (gazeY p) <= 1
  /\ Rabs (handLeft p) <= 1 /\ Rabs (handRight p) <= 1
  /\ Rabs (bodySway p) <= 1.

(** The ranges the compositor's formulas give. *)
Definition poseWithinComputedRange (p : LipState) : Prop :=
  0.05 <= mouthOpen p <= 1
  /\ 0.05 <= mouthWidth p <= 0.95
  /\ 0 <= blink p <= 1
  /\ 0 <= eyebrowLift p <= 1.25
  /\ -0.25 <= headYaw p <= 0.346
  /\ -0.23 <= headPitch p <= 0.28
  /\ -0.14 <= headRoll p <= 0.14
  /\ -0.585 <= gazeX p <= 0.585
  /\ -0.42 <= gazeY p <= 0.42
  /\ -0.2 <= handLeft p <= 1.7
  /\ -0.25 <= handRight p <= 1.8
  /\ -0.25 <= bodySway p <= 0.45.

(** The nine channels that stay within magnitude 1. *)
Definition nineWithinUnit (p : LipState) : Prop :=
  0 <= mouthOpen p <= 1 /\ 0 <= mouthWidth p <= 1 /\ 0 <= blink p <= 1
  /\ -1 <= headYaw p <= 1 /\ -1 <= headPitch p <= 1 /\ -1 <= headRoll p <= 1
  /\ -1 <= gazeX p <= 1 /\ -1 <= gazeY p <= 1 /\ -1 <= bodySway p <= 1.

Definition keen : EmotionPreset :=
  {| mouthEnergy := 1; handAmplitude := 1; gazeIntensity := 1; browLift := 1 |}.

Definition browser : Platform :=
  {| hasWindow := true; newContextState := Running; recorderSupported := true;
     playFulfils := true; transcode := fun _ => None |}.

Definition heyProps (e : EmotionPreset) : UseLipSyncEngineProps :=
  {| emotion := e; script := lit "Hey there"; seed := 0.25 |}.

Definition textOptions : StartPreviewOptions :=
  {| forceRestart := false; sourceMode := Some TextMode; fromExport := false |}.

Definition audioOptions : StartPreviewOptions :=
  {| forceRestart := false; sourceMode := Some AudioMode; fromExport := false |}.

Definition noOptions : StartPreviewOptions :=
  {| forceRestart := false; sourceMode := None; fromExport := false |}.

(** The byte array of a silent signal. *)
Definition silence : list Z := repeat 128%Z 1024.

(** A world freshly mounted in a browser with speech synthesis, and one in
    which an audio file has been loaded as well. *)
Definition freshWorld (props : UseLipSyncEngineProps) : World :=
  {| engine := mounted props true; suspended := [] |}.

Definition loadedWorld (props : UseLipSyncEngineProps) : World :=
  {| engine := loadAudioFile browser (mounted props true); suspended := [] |}.

(** Whether some code unit of [s] is not white space. *)
Definition hasWord (s : JsString) : bool :=
  existsb (fun c => negb (isSpace c)) s.

(** The mode a call of [startPreview] works in:
    [options?.sourceMode ?? modeRef.current]. *)
Definition requestedMode (options : StartPreviewOptions) (st : Engine)
    : VoiceMode :=
  match sourceMode options with Some m => m | None => modeRef st end.

(** The pose after the reset at the head of [startPreview], which export
    skips. *)
Definition poseAfterReset (options : StartPreviewOptions) (st : Engine)
    : LipState :=
  if fromExport options then lipState st else lipState (resetLipState st).

Definition forcedAudioOptions : StartPreviewOptions :=
  {| forceRestart := true; sourceMode := Some AudioMode; fromExport := false |}.

Definition blankProps : UseLipSyncEngineProps :=
  {| emotion := calm; script := lit "   "; seed := 0.25 |}.

(** The single-clock invariant: at most one animation frame is pending, and
    it is the one registered in [rafRef]. *)
Definition oneClock (st : Engine) : Prop :=
  (1 <= nextFrameId st)%nat
  /\ rafRef st <> Some 0%nat
  /\ match pendingFrames st with
     | [] => True
     | [id] => rafRef st = Some id
     | _ => False
     end.

(** No animation frame is pending. *)
Definition clockIdle (st : Engine) : Prop :=
  (1 <= nextFrameId st)%nat /\ rafRef st <> Some 0%nat /\ pendingFrames st = [].

(** The promise of the export in progress is settled or can still be. *)
Definition exportOpen (st : Engine) : Prop :=
  exportResolveRef st = true \/ exportSettled st = true.

(** Two calls in audio mode of which the second is made while the first is
    suspended at [await audio.play()]; then both promises fulfil. *)
Definition overlappingStarts : list Action :=
  [Call audioOptions 0; Call audioOptions 1; Settle 0; Settle 0].

(** One frame in which both callbacks run, then [stopPreview()]. *)
Definition frameThenStop : list Action :=
  [Occur (Frame 1 16 silence); Occur (Frame 2 16 silence); Occur StopPreview].

(** Whether the audio element exists. *)
Definition hasElement (st : Engine) : bool :=
  match audioRef st with Some _ => true | None => false end.

(** The state a call has reached when it branches on the mode. *)
Definition entered (options : StartPreviewOptions) (mode : VoiceMode) (now : R)
    (st : Engine) : Engine :=
  let st := set_modeRef mode st in
  let st := if fromExport options then st else resetLipState st in
  set_startTimeRef now (cleanupRAF st).


(** [b] has the clock and export fields of [a]. *)
Definition sameControl (a b : Engine) : Prop :=
  nextFrameId b = nextFrameId a /\ rafRef b = rafRef a
  /\ pendingFrames b = pendingFrames a
  /\ exportResolveRef b = exportResolveRef a
  /\ exportSettled b = exportSettled a.


(** A browser in which [audio.play()] rejects (the loaded file cannot be
    played). *)
Definition rejecting : Platform :=
  {| hasWindow := true; newContextState := Running; recorderSupported := true;
     playFulfils := false; transcode := fun _ => None |}.

Definition noGaps : Gaps := {| duringResume := []; duringPlay := [] |}.

Definition noPauses : Pauses := {| whileResuming := []; whilePlaying := [] |}.

(** A world with no call suspended. *)
Definition alone (st : Engine) : World := {| engine := st; suspended := [] |}.

(** The stage is registered, a file is loaded, and an audio preview has been
    asked for. *)
Definition audioStage (pf : Platform) (props : UseLipSyncEngineProps) : Engine :=
  snd (startPreview pf props audioOptions 0 noGaps
         (registerStageCanvas true (loadAudioFile pf (mounted props true)))).

(** A step that does not begin another call of [exportVideo]. *)
Definition noExport (s : Step) : Prop :=
  match s with Export _ => False | _ => True end.

(** A step that is a browser or user event. *)
Definition eventStep (s : Step) : Prop :=
  match s with Do (Occur _) => True | _ => False end.

(** ** Further notions used in the statements *)

(** A word as [getWords] returns them: not empty and free of white space. *)
Definition cleanWord (w : JsString) : Prop :=
  w <> [] /\ Forall (fun c => isSpace c = false) w.

(** [words.join(" ")] *)
Fixpoint unwords (ws : list JsString) : JsString :=
  match ws with
  | [] => []
  | [w] => w
  | w :: rest => w ++ space :: unwords rest
  end.

(** A timeline whose frame times strictly increase. *)
Definition timeIncreasing (timeline : list VisemeFrame) : Prop :=
  StronglySorted (fun a b => time a < time b) timeline.

(** An action that cannot suspend: an event, or a call that names the text
    mode. *)
Definition textOnly (a : Action) : Prop :=
  match a with
  | Call options _ => sourceMode options = Some TextMode
  | Settle _ => False
  | Occur _ => True
  end.


(** * Properties *)

(** ** Words *)

Example getWords_hey :
  getWords (lit "Hey there") = [lit "Hey"; lit "there"].
Proof. reflexivity. Qed.

Example getWords_blank : getWords (lit "   ") = [].
Proof. reflexivity. Qed.

Example getWords_empty : getWords [] = [].
Proof. reflexivity. Qed.


Lemma hasWord_replaceRuns (inRun : bool) (s : JsString) :
  hasWord (replaceRuns inRun s) = hasWord s.
Proof.
  revert inRun. induction s as [|c r IH]; intros inRun; [reflexivity|].
  cbn [replaceRuns]. destruct (isSpace c) eqn:Hc.
  - destruct inRun; cbn [hasWord existsb]; fold (hasWord r);
      fold (hasWord (replaceRuns true r)); rewrite ?Hc, IH; reflexivity.
  - cbn [hasWord existsb]. fold (hasWord r). fold (hasWord (replaceRuns false r)).
    now rewrite Hc, IH.
Qed.

Lemma hasWord_trimStart (s : JsString) : hasWord (trimStart s) = hasWord s.
Proof.
  induction s as [|c r IH]; [reflexivity|].
  cbn [trimStart]. destruct (isSpace c) eqn:Hc; [|reflexivity].
  rewrite IH. cbn [hasWord existsb]. now rewrite Hc.
Qed.

Lemma hasWord_app (a b : JsString) : hasWord (a ++ b) = hasWord a || hasWord b.
Proof. apply existsb_app. Qed.

Lemma hasWord_rev (s : JsString) : hasWord (rev s) = hasWord s.
Proof.
  induction s as [|c r IH]; [reflexivity|].
  cbn [rev]. rewrite hasWord_app, IH. cbn [hasWord existsb].
  rewrite orb_false_r. apply orb_comm.
Qed.

Lemma hasWord_trim (s : JsString) : hasWord (trim s) = hasWord s.
Proof.
  unfold trim, trimEnd.
  now rewrite hasWord_rev, hasWord_trimStart, hasWord_rev, hasWord_trimStart.
Qed.

Lemma trimStart_head (s : JsString) (c : N) (r : JsString) :
  trimStart s = c :: r -> isSpace c = false.
Proof.
  induction s as [|d t IH]; [discriminate|].
  cbn [trimStart]. destruct (isSpace d) eqn:Hd; [exact IH|].
  now intros [= <- _].
Qed.

Lemma trimStart_hasWord (s : JsString) :
  trimStart s <> [] -> hasWord (trimStart s) = true.
Proof.
  destruct (trimStart s) as [|c r] eqn:E; [congruence|]. intros _.
  cbn [hasWord existsb]. now rewrite (trimStart_head s c r E).
Qed.

(** A trimmed string that is not empty has a word in it. *)
Lemma trim_hasWord (s : JsString) : trim s <> [] -> hasWord (trim s) = true.
Proof.
  unfold trim, trimEnd. intros H. rewrite hasWord_rev.
  apply trimStart_hasWord. intros E. apply H. now rewrite E.
Qed.

Lemma split_not_nil (s : JsString) : split s <> [].
Proof.
  induction s as [|c r IH]; [discriminate|].
  cbn [split]. destruct (N.eqb c space); [discriminate|].
  destruct (split r); discriminate.
Qed.

Lemma split_hasWord (s : JsString) :
  hasWord s = true -> filter nonEmpty (split s) <> [].
Proof.
  induction s as [|c r IH]; [discriminate|].
  cbn [split hasWord existsb]. fold (hasWord r).
  destruct (N.eqb c space) eqn:Hc.
  - apply N.eqb_eq in Hc. subst c. cbn. exact IH.
  - intros _. destruct (split r); cbn; discriminate.
Qed.

Lemma getWords_hasWord (text : JsString) :
  hasWord text = true -> getWords text <> [].
Proof.
  intros H. unfold getWords. apply split_hasWord.
  now rewrite hasWord_trim, hasWord_replaceRuns.
Qed.

Lemma trimStart_blank (s : JsString) :
  forallb isSpace s = true -> trimStart s = [].
Proof.
  induction s as [|c r IH]; [reflexivity|].
  cbn [forallb trimStart]. intros H. apply andb_true_iff in H as [Hc Hr].
  rewrite Hc. now apply IH.
Qed.

Lemma trim_blank (s : JsString) : forallb isSpace s = true -> trim s = [].
Proof. intros H. unfold trim. now rewrite (trimStart_blank s H). Qed.

(** The text that is spoken always has a word. *)
Lemma spokenText_words (props : UseLipSyncEngineProps) :
  getWords (spokenText props) <> [].
Proof.
  unfold spokenText, orElse.
  destruct (trim (script props)) as [|c r] eqn:E; cbn [nonEmpty].
  - discriminate.
  - apply getWords_hasWord. rewrite <- E. apply trim_hasWord. now rewrite E.
Qed.

Lemma spokenText_blank (props : UseLipSyncEngineProps) :
  forallb isSpace (script props) = true -> spokenText props = defaultPhrase.
Proof. intros H. unfold spokenText. now rewrite (trim_blank _ H). Qed.

(** Unfolds the controller's primitives and the field updates. *)
Ltac unfold_engine :=
  cbv beta iota zeta delta
    [shutdownPlayback stopPreview resetLipState cleanupRAF
     cancelAnimationFrame stopSpeechSynthesis armClock requestAnimationFrame
     ensureAnalyser ensureAudioContext startPreviewPlay startPreviewPlayed
     set_lipState set_isSpeaking set_hasAudioLoaded set_ttsSupported
     set_modeRef set_rafRef set_startTimeRef set_visemeTimelineRef
     set_visemeDurationRef set_exportResolveRef set_audioRef
     set_audioContextRef set_analyserRef set_audioDataRef set_stageCanvasRef
     set_randomRef set_ttsUtteranceRef set_pendingFrames set_nextFrameId
     set_speechQueue set_exportSettled
     lipState isSpeaking hasAudioLoaded ttsSupported modeRef rafRef
     startTimeRef visemeTimelineRef visemeDurationRef exportResolveRef
     audioRef audioContextRef analyserRef audioDataRef stageCanvasRef
     randomRef ttsUtteranceRef pendingFrames nextFrameId speechQueue
     exportSettled hasWindow newContextState recorderSupported playFulfils
     transcode negb andb orb fst snd].

(** Splits on the variables the goal branches on. *)
Ltac split_vars :=
  repeat match goal with
         | |- context [match ?x with _ => _ end] => is_var x; destruct x
         | |- context [if ?x then _ else _] => is_var x; destruct x
         end.

Ltac engine_cases st :=
  destruct st; unfold_engine; split_vars; unfold_engine.

(** Takes an engine state apart into named fields. *)
Ltac take_apart st :=
  destruct st as [pose speaking loaded tts mode raf start tline tdur resolver
                  audio ctx analyser data canvas rnd utter pending next queue
                  settled].

(** ** Numbers and the generator *)

Lemma clamp_bounds (v lo hi : R) : lo <= hi -> lo <= clamp v lo hi <= hi.
Proof.
  intros H. unfold clamp, Rmin, Rmax.
  destruct (Rle_dec v lo); destruct (Rle_dec _ hi); lra.
Qed.

Lemma clamp_id (v lo hi : R) : lo <= v <= hi -> clamp v lo hi = v.
Proof.
  intros H. unfold clamp, Rmin, Rmax.
  destruct (Rle_dec v lo); destruct (Rle_dec _ hi); lra.
Qed.

Lemma geb_true (a b : R) : b <= a -> geb a b = true.
Proof. intros H. unfold geb. destruct (Rle_dec b a); [reflexivity | contradiction]. Qed.

Lemma geb_false (a b : R) : a < b -> geb a b = false.
Proof. intros H. unfold geb. destruct (Rle_dec b a); [lra | reflexivity]. Qed.

Lemma gtb_false (a b : R) : a <= b -> gtb a b = false.
Proof. intros H. unfold gtb. destruct (Rlt_dec b a); [lra | reflexivity]. Qed.

Lemma floor_frac (x : R) : 0 <= x - floor x < 1.
Proof. unfold floor. pose proof (Zfloor_bound x). lra. Qed.

(** Every draw lies in [0, 1). *)
Lemma random_range (value : R) : 0 <= fst (random value) < 1.
Proof. unfold random. cbn [fst]. apply floor_frac. Qed.

Lemma bind_run {A B : Type} (m : Rand A) (k : A -> Rand B) (value : R) :
  bind m k value = k (fst (m value)) (snd (m value)).
Proof. unfold bind. destruct (m value); reflexivity. Qed.

Lemma forEach_length {A B : Type} (f : A -> Rand B) (l : list A) (value : R) :
  List.length (fst (forEach f l value)) = List.length l.
Proof.
  revert value. induction l as [|a r IH]; intros value; [reflexivity|].
  cbn [forEach]. rewrite !bind_run. cbn. now rewrite IH.
Qed.

(** A property that every run of [f] establishes holds of all results. *)
Lemma forEach_Forall2 {A B : Type} (P : A -> B -> Prop) (f : A -> Rand B) :
  (forall a value, P a (fst (f a value))) ->
  forall l value, Forall2 P l (fst (forEach f l value)).
Proof.
  intros Hf. induction l as [|a r IH]; intros value; cbn [forEach].
  - constructor.
  - rewrite !bind_run. cbn. constructor; [apply Hf | apply IH].
Qed.

Lemma forEach_Forall {A B : Type} (P : B -> Prop) (f : A -> Rand B) :
  (forall a value, P (fst (f a value))) ->
  forall l value, Forall P (fst (forEach f l value)).
Proof.
  intros Hf. induction l as [|a r IH]; intros value; cbn [forEach].
  - constructor.
  - rewrite !bind_run. cbn. constructor; [apply Hf | apply IH].
Qed.

Lemma indicesBelow_length (x : R) (n : Z) :
  IZR n <= x < IZR n + 1 -> List.length (indicesBelow x) = Z.to_nat n.
Proof.
  intros H. unfold indicesBelow. rewrite length_seq.
  now rewrite (Zfloor_eq n x H).
Qed.

(** ** Viseme timeline synthesizer *)

Lemma fallback_frames_length (value : R) :
  List.length (fst (forEach fallbackFrame (indicesBelow (fallbackDuration * 60)) value))
  = 150%nat.
Proof.
  rewrite forEach_length.
  rewrite (indicesBelow_length _ 150); [reflexivity|].
  unfold fallbackDuration. lra.
Qed.

Lemma fallback_frames_time (l : list nat) (value : R) :
  Forall2 (fun i f => time f = INR i / 60 /\ 0.2 <= mouth f <= 0.35
                      /\ 0.3 <= width f <= 0.45)
          l (fst (forEach fallbackFrame l value)).
Proof.
  apply forEach_Forall2. intros i v. unfold fallbackFrame.
  rewrite !bind_run. unfold ret. cbn [fst time mouth width].
  pose proof (random_range v) as H1.
  pose proof (random_range (snd (random v))) as H2.
  repeat split; lra.
Qed.

Lemma estimateWordDuration_range (emotion : EmotionPreset) :
  0.28 <= estimateWordDuration emotion <= 0.6.
Proof. unfold estimateWordDuration. apply clamp_bounds. lra. Qed.

Lemma frameCount_at_least (d : R) :
  2 <= d -> (120 <= Z.to_nat (Zfloor (d * 60)))%nat.
Proof.
  intros H. assert (120 <= Zfloor (d * 60))%Z by (apply Zfloor_lub; lra). lia.
Qed.

Lemma timeline_words (w : JsString) (ws : list JsString)
    (emotion : EmotionPreset) (seed : R) (text : JsString) :
  getWords text = w :: ws ->
  let timeline := buildVisemeTimeline text emotion seed in
  duration timeline
  = Rmax (INR (List.length (w :: ws)) * estimateWordDuration emotion + 1.2) 2
  /\ List.length (frames timeline) = Z.to_nat (Zfloor (duration timeline * 60)).
Proof.
  intros Hw. unfold buildVisemeTimeline. rewrite Hw. cbn [frames duration].
  split; [reflexivity|].
  rewrite bind_run, forEach_length. unfold indicesBelow. now rewrite length_seq.
Qed.

Lemma timeline_duration_min (text : JsString) (emotion : EmotionPreset)
    (seed : R) :
  2 <= duration (buildVisemeTimeline text emotion seed).
Proof.
  unfold buildVisemeTimeline.
  destruct (getWords text) as [|w ws]; cbn [duration].
  - unfold fallbackDuration. lra.
  - apply Rmax_r.
Qed.








(** C7.  Every text gives at least one frame and a duration of at least two
    seconds: without words, the 2.5 s fallback of 150 frames spaced 1/60 s;
    with words, [max(count * wordDuration + 1.2, 2)] seconds. *)
Theorem buildVisemeTimeline_nonempty
    (text : JsString) (emotion : EmotionPreset) (seed : R) :
  let timeline := buildVisemeTimeline text emotion seed in
  (1 <= List.length (frames timeline))%nat
  /\ 2 <= duration timeline
  /\ match getWords text with
     | [] =>
         duration timeline = 2.5
         /\ List.length (frames timeline) = Z.to_nat (Zfloor (2.5 * 60))
         /\ List.length (frames timeline) = 150%nat
         /\ Forall2 (fun i f => time f = INR i / 60) (seq 0 150) (frames timeline)
     | words =>
         duration timeline
         = Rmax (INR (List.length words) * estimateWordDuration emotion + 1.2) 2
         /\ List.length (frames timeline)
            = Z.to_nat (Zfloor (duration timeline * 60))
     end.
Proof.
  cbn zeta. destruct (getWords text) as [|w ws] eqn:Hw.
  - unfold buildVisemeTimeline. rewrite Hw. cbn [frames duration].
    rewrite fallback_frames_length.
    assert (Hn : Z.to_nat (Zfloor (2.5 * 60)) = 150%nat).
    { rewrite (Zfloor_eq 150); [reflexivity | lra]. }
    unfold fallbackDuration at 1 2.
    repeat split; try lra; try lia.
    unfold indicesBelow, fallbackDuration. rewrite Hn.
    eapply Forall2_impl; [|apply fallback_frames_time].
    intros i f H. apply H.
  - destruct (timeline_words w ws emotion seed text Hw) as [Hd Hl].
    pose proof (timeline_duration_min text emotion seed) as H2.
    repeat split; try assumption.
    rewrite Hl. pose proof (frameCount_at_least _ H2). lia.
Qed.



(** ** Timeline sampler *)

Lemma lastFrame_app (l : list VisemeFrame) (f : VisemeFrame) :
  lastFrame (l ++ [f]) = Some f.
Proof.
  unfold lastFrame. rewrite length_app. cbn [List.length].
  replace (List.length l + 1 - 1)%nat with (List.length l) by lia.
  rewrite nth_error_app2 by lia. now rewrite Nat.sub_diag.
Qed.

Lemma lastFrame_nil : lastFrame [] = None.
Proof. reflexivity. Qed.

Lemma sampleViseme_hold (l : list VisemeFrame) (final : VisemeFrame) (elapsed : R) :
  time final <= elapsed -> sampleViseme (l ++ [final]) elapsed = visemeOf final.
Proof.
  intros H. unfold sampleViseme. rewrite lastFrame_app.
  now rewrite (geb_true _ _ H).
Qed.

(** The frames of a synthesized timeline: frame [i] is at [i / 60] and in
    range. *)
Lemma timeline_frames (text : JsString) (emotion : EmotionPreset) (seed : R) :
  let timeline := buildVisemeTimeline text emotion seed in
  Forall2 (fun i f => time f = INR i / 60 /\ frameInRange f)
          (indicesBelow (duration timeline * 60)) (frames timeline).
Proof.
  cbn zeta. unfold buildVisemeTimeline.
  destruct (getWords text) as [|w ws]; cbn [frames duration].
  - eapply Forall2_impl; [|apply fallback_frames_time].
    intros i f (Ht & Hm & Hw). unfold frameInRange. repeat split; lra.
  - rewrite bind_run. apply forEach_Forall2.
    intros i v. unfold synthFrame. rewrite !bind_run. unfold ret.
    cbn [fst time mouth width]. unfold frameInRange. cbn [mouth width].
    split; [reflexivity|].
    split; apply clamp_bounds; lra.
Qed.

Lemma timeline_in_range (text : JsString) (emotion : EmotionPreset) (seed : R) :
  Forall frameInRange (frames (buildVisemeTimeline text emotion seed)).
Proof.
  pose proof (timeline_frames text emotion seed) as H. cbn zeta in H.
  induction H as [|i f li lf [_ Hf] _ IH]; constructor; assumption.
Qed.

Lemma Forall2_seq_last {B : Type} (P : nat -> B -> Prop) (n : nat) (l : list B) :
  Forall2 P (seq 0 (S n)) l -> exists init final, l = init ++ [final] /\ P n final.
Proof.
  intros H. rewrite seq_S in H. cbn [Nat.add] in H.
  apply Forall2_app_inv_l in H as (init & fin & _ & Hfin & ->).
  inversion Hfin as [|? final ? rest Hp Hnil]; subst.
  inversion Hnil; subst. now exists init, final.
Qed.

(** A synthesized timeline ends with a frame that lies before its duration. *)
Lemma timeline_last (text : JsString) (emotion : EmotionPreset) (seed : R) :
  let timeline := buildVisemeTimeline text emotion seed in
  exists init final,
    frames timeline = init ++ [final] /\ time final < duration timeline.
Proof.
  cbn zeta.
  pose proof (timeline_frames text emotion seed) as HF. cbn zeta in HF.
  pose proof (timeline_duration_min text emotion seed) as Hd.
  unfold indicesBelow in HF.
  set (d := duration (buildVisemeTimeline text emotion seed)) in *.
  pose proof (frameCount_at_least d Hd) as Hn.
  destruct (Z.to_nat (Zfloor (d * 60))) as [|n] eqn:En; [lia|].
  apply Forall2_seq_last in HF as (init & final & Hfr & Ht & _).
  exists init, final. split; [assumption|]. rewrite Ht.
  pose proof (Zfloor_bound (d * 60)) as [Hlo _].
  assert (Hz : Zfloor (d * 60) = Z.of_nat (S n)) by lia.
  rewrite Hz, <- INR_IZR_INZ, S_INR in Hlo. lra.
Qed.

Lemma updateLoop_keeps_timeline (props : UseLipSyncEngineProps)
    (timestamp : R) (samples : list Z) (st : Engine) :
  visemeTimelineRef (updateLoop props timestamp samples st) = visemeTimelineRef st
  /\ visemeDurationRef (updateLoop props timestamp samples st) = visemeDurationRef st.
Proof.
  unfold updateLoop.
  destruct (driverSignal props timestamp samples st) as [v|].
  - destruct (composePose props timestamp v (randomRef st)) as [pose value'].
    destruct st; split; reflexivity.
  - engine_cases st; split; reflexivity.
Qed.

(** C8.  The sampler holds the last frame: at or beyond the last frame's time
    it returns that frame's mouth and width, hence at or beyond the duration
    of a synthesized timeline; an empty list gives the idle pair; and a tick
    of the clock, which samples, leaves the stored timeline as it was. *)
Theorem sampleViseme_holds_endpoint :
  (forall (init : list VisemeFrame) (final : VisemeFrame) (elapsed : R),
      time final <= elapsed ->
      sampleViseme (init ++ [final]) elapsed
      = {| visemeMouth := mouth final; visemeWidth := width final |})
  /\ (forall (text : JsString) (emotion : EmotionPreset) (seed t : R),
        let timeline := buildVisemeTimeline text emotion seed in
        duration timeline <= t ->
        exists init final,
          frames timeline = init ++ [final]
          /\ sampleViseme (frames timeline) t
             = {| visemeMouth := mouth final; visemeWidth := width final |})
  /\ (forall elapsed : R,
        sampleViseme [] elapsed = {| visemeMouth := 0.1; visemeWidth := 0.3 |})
  /\ (forall (props : UseLipSyncEngineProps) (timestamp : R)
             (samples : list Z) (st : Engine),
        visemeTimelineRef (updateLoop props timestamp samples st)
        = visemeTimelineRef st).
Proof.
  split; [|split; [|split]].
  - intros init final elapsed H. now rewrite sampleViseme_hold.
  - intros text emotion seed t timeline Ht.
    destruct (timeline_last text emotion seed) as (init & final & Hfr & Hlt).
    exists init, final. split; [exact Hfr|].
    fold timeline in Hfr, Hlt. rewrite Hfr.
    rewrite sampleViseme_hold; [reflexivity | lra].
  - reflexivity.
  - intros. apply updateLoop_keeps_timeline.
Qed.

Lemma sampleViseme_holds_endpoint_witness :
  sampleViseme
    ([{| time := 0; mouth := 0.2; width := 0.3 |}]
     ++ [{| time := 1; mouth := 0.6; width := 0.5 |}]) 3
  = {| visemeMouth := 0.6; visemeWidth := 0.5 |}.
Proof.
  destruct sampleViseme_holds_endpoint as [H _].
  apply (H [{| time := 0; mouth := 0.2; width := 0.3 |}]
           {| time := 1; mouth := 0.6; width := 0.5 |} 3).
  cbn. lra.
Defined.

(** ** Pose compositor *)

Lemma interpolate_range (a b w lo hi : R) :
  lo <= a <= hi -> lo <= b <= hi -> 0 <= w <= 1 ->
  lo <= a + (b - a) * w <= hi.
Proof.
  intros Ha Hb Hw.
  replace (a + (b - a) * w) with (a * (1 - w) + b * w) by ring.
  split; nra.
Qed.

Lemma nth_Forall {A : Type} (P : A -> Prop) (l : list A) (d : A) (n : nat) :
  Forall P l -> P d -> P (nth n l d).
Proof.
  intros Hl Hd. destruct (nth_in_or_default n l d) as [Hin | ->]; [|exact Hd].
  rewrite Forall_forall in Hl. now apply Hl.
Qed.

Lemma sampleViseme_in_range (timeline : list VisemeFrame) (elapsed : R) :
  Forall frameInRange timeline -> visemeInRange (sampleViseme timeline elapsed).
Proof.
  intros HF. unfold sampleViseme.
  destruct (lastFrame timeline) as [final|] eqn:Hlast.
  - assert (Hfin : frameInRange final).
    { unfold lastFrame in Hlast. apply nth_error_In in Hlast.
      rewrite Forall_forall in HF. now apply HF. }
    destruct (geb elapsed (time final)); [exact Hfin|].
    destruct (_ <=? 0)%Z.
    + destruct timeline as [|f r]; [exact Hfin|]. cbn [hd]. now inversion HF.
    + set (prev := nth _ timeline final). set (current := nth _ timeline final).
      assert (Hp : frameInRange prev) by (apply nth_Forall; assumption).
      assert (Hc : frameInRange current) by (apply nth_Forall; assumption).
      set (weight := clamp _ 0 1).
      assert (Hw : 0 <= weight <= 1) by (apply clamp_bounds; lra).
      destruct Hp as [Hp1 Hp2], Hc as [Hc1 Hc2].
      split; cbn [visemeMouth visemeWidth]; apply interpolate_range; assumption.
  - unfold visemeInRange. cbn. lra.
Qed.

Lemma audioViseme_in_range (emotion : EmotionPreset) (samples : list Z) :
  visemeInRange (audioViseme emotion samples).
Proof.
  unfold audioViseme, visemeInRange. cbn [visemeMouth visemeWidth].
  pose proof (clamp_bounds
    (sqrt (fold_left (fun sum b => sum + (IZR b - 128) / 128 * ((IZR b - 128) / 128))
                     samples 0 / INR (List.length samples)) * 2.8 + 0.25)
    0.05 0.9).
  split; [apply clamp_bounds; lra | lra].
Qed.

(** The driver's pair is in range whenever the stored timeline is. *)
Lemma driverSignal_in_range (props : UseLipSyncEngineProps) (timestamp : R)
    (samples : list Z) (st : Engine) (v : Viseme) :
  Forall frameInRange (visemeTimelineRef st) ->
  driverSignal props timestamp samples st = Some v -> visemeInRange v.
Proof.
  intros HF. unfold driverSignal.
  destruct (modeRef st); destruct (analyserRef st && audioDataRef st);
    try (destruct (truthy _ && gtb _ _); [discriminate|]);
    intros [= <-];
    first [apply sampleViseme_in_range; assumption | apply audioViseme_in_range].
Qed.

Lemma scaled_bound (s k : R) : -1 <= s <= 1 -> 0 <= k -> - k <= s * k <= k.
Proof. intros Hs Hk. split; nra. Qed.

(** The pose in terms of the nine draws. *)
Lemma composePose_draws (props : UseLipSyncEngineProps) (timestamp : R)
    (viseme : Viseme) (value : R) :
  exists r1 r2 r3 r4 r5 r6 r7 r8 : R,
    (0 <= r1 < 1 /\ 0 <= r2 < 1 /\ 0 <= r3 < 1 /\ 0 <= r4 < 1)
    /\ (0 <= r5 < 1 /\ 0 <= r6 < 1 /\ 0 <= r7 < 1 /\ 0 <= r8 < 1)
    /\ fst (composePose props timestamp viseme value)
       = let e := emotion props in
         let mouth := visemeMouth viseme in
         {| mouthOpen := mouth;
            mouthWidth := visemeWidth viseme;
            blink :=
              clamp (Rabs (sin (timestamp / (1300 + r1 * 400) + seed props)) ^ 12
                     * (0.8 + r2 * 0.4)) 0 1
              * (1 - gazeIntensity e * 0.2);
            eyebrowLift := browLift e + mouth * 0.25;
            headYaw :=
              sin (timestamp / (2300 + gazeIntensity e * 300) + seed props) * 0.25
              + mouth * 0.08 * (gazeIntensity e + 0.2);
            headPitch :=
              sin (timestamp / (3100 + r3 * 500)) * 0.18
              + (browLift e * 0.15 - 0.05);
            headRoll := sin (timestamp / (4100 + r4 * 500)) * 0.14;
            gazeX :=
              sin (timestamp / (1600 + r5 * 600)) * 0.45 * (gazeIntensity e + 0.3);
            gazeY :=
              sin (timestamp / (2100 + r6 * 700) + 0.5) * 0.35
              * (gazeIntensity e + 0.2);
            handLeft :=
              mouth * (0.5 + handAmplitude e)
              + sin (timestamp / 800 + r7 * 2) * 0.2;
            handRight :=
              mouth * (0.45 + handAmplitude e * 1.1)
              + sin (timestamp / 900 + r8 * 2) * 0.25;
            bodySway := sin (timestamp / 2500) * 0.25 + mouth * 0.2 |}.
Proof.
  unfold composePose. rewrite !bind_run. unfold ret. cbn [fst].
  set (v1 := snd (random value)).
  set (v2 := snd (random v1)). set (v3 := snd (random v2)).
  set (v4 := snd (random v3)). set (v5 := snd (random v4)).
  set (v6 := snd (random v5)). set (v7 := snd (random v6)).
  set (v8 := snd (random v7)).
  exists (fst (random v1)), (fst (random v2)), (fst (random v3)),
         (fst (random v4)), (fst (random v5)), (fst (random v6)),
         (fst (random v7)), (fst (random v8)).
  repeat split; try apply random_range.
Qed.

Lemma composePose_range (props : UseLipSyncEngineProps) (timestamp : R)
    (viseme : Viseme) (value : R) :
  emotionInRange (emotion props) -> visemeInRange viseme ->
  poseWithinComputedRange (fst (composePose props timestamp viseme value)).
Proof.
  intros (He1 & He2 & He3 & He4) (Hm & Hw).
  destruct (composePose_draws props timestamp viseme value)
    as (r1 & r2 & r3 & r4 & r5 & r6 & r7 & r8 & _ & _ & ->).
  cbn zeta. unfold poseWithinComputedRange.
  cbn [mouthOpen mouthWidth blink eyebrowLift headYaw headPitch headRoll
       gazeX gazeY handLeft handRight bodySway].
  set (e := emotion props) in *. set (m := visemeMouth viseme) in *.
  repeat match goal with
         | |- context [sin ?x] =>
             let s := fresh "s" in
             let Hs := fresh "Hs" in
             pose proof (SIN_bound x) as Hs; set (s := sin x) in *; clearbody s
         end.
  match goal with
  | |- context [clamp ?x 0 1] =>
      pose proof (clamp_bounds x 0 1 ltac:(lra)) as Hc;
      set (c := clamp x 0 1) in *; clearbody c
  end.
  repeat split; try lra; try nra.
Qed.

Lemma updateLoop_pose (props : UseLipSyncEngineProps) (timestamp : R)
    (samples : list Z) (st : Engine) :
  lipState (updateLoop props timestamp samples st)
  = match driverSignal props timestamp samples st with
    | Some v => fst (composePose props timestamp v (randomRef st))
    | None => lipState st
    end.
Proof.
  unfold updateLoop.
  destruct (driverSignal props timestamp samples st) as [v|].
  - destruct (composePose props timestamp v (randomRef st)) as [pose value'].
    destruct st; reflexivity.
  - engine_cases st; reflexivity.
Qed.

Lemma handle_frame_audio (props : UseLipSyncEngineProps) (id : nat)
    (timestamp : R) (samples : list Z) (st : Engine) :
  memId id (pendingFrames st) = true ->
  modeRef st = AudioMode -> analyserRef st = true -> audioDataRef st = true ->
  lipState (handle props (Frame id timestamp samples) st)
  = fst (composePose props timestamp (audioViseme (emotion props) samples)
           (randomRef st)).
Proof.
  intros Hid Hm Ha Hd. cbn [handle]. rewrite Hid, updateLoop_pose.
  unfold driverSignal.
  replace (modeRef (cancelAnimationFrame id st)) with AudioMode
    by (rewrite <- Hm; destruct st; reflexivity).
  replace (analyserRef (cancelAnimationFrame id st)) with true
    by (rewrite <- Ha; destruct st; reflexivity).
  replace (audioDataRef (cancelAnimationFrame id st)) with true
    by (rewrite <- Hd; destruct st; reflexivity).
  cbn [andb]. destruct st; reflexivity.
Qed.

Lemma eyebrowLift_composePose (props : UseLipSyncEngineProps) (timestamp : R)
    (viseme : Viseme) (value : R) :
  eyebrowLift (fst (composePose props timestamp viseme value))
  = browLift (emotion props) + visemeMouth viseme * 0.25.
Proof.
  destruct (composePose_draws props timestamp viseme value)
    as (r1 & r2 & r3 & r4 & r5 & r6 & r7 & r8 & _ & _ & ->).
  reflexivity.
Qed.

(** C2, as stated, fails: in an audio session on a silent signal, with an
    emotion whose fields are all 1, the tick publishes an eyebrow channel
    above 1. *)
Lemma pose_exceeds_unit :
  ~ poseWithinUnit
      (lipState
         (engine
            (actAll browser (heyProps keen)
               [Call audioOptions 0; Settle 0; Occur (Frame 1 0 silence)]
               (loadedWorld (heyProps keen))))).
Proof.
  intros (_ & _ & _ & H & _). revert H.
  unfold actAll. cbn [fold_left].
  set (w := act browser (heyProps keen) (Settle 0) _).
  cbn [act engine].
  rewrite handle_frame_audio by reflexivity.
  rewrite eyebrowLift_composePose.
  pose proof (audioViseme_in_range (emotion (heyProps keen)) silence) as [Hm _].
  set (m := visemeMouth (audioViseme (emotion (heyProps keen)) silence)) in *.
  cbn [heyProps emotion keen browLift].
  rewrite Rabs_pos_eq; lra.
Qed.

(** C2, amended.  With the emotion's fields in [0, 1] and a stored timeline
    whose frames are in range (as every synthesized one is), a tick that
    publishes a pose (it does unless the text session is over, and then the
    pose is left as it was) publishes the compositor's pose, with mouth
    openness in [0.05, 1], mouth width in [0.05, 0.95], blink in [0, 1], head
    rotations, gaze and body sway within magnitude 1, the eyebrow in
    [0, 1.25], the left hand in [-0.2, 1.7] and the right hand in
    [-0.25, 1.8]. *)
Theorem updateLoop_pose_ranges (props : UseLipSyncEngineProps)
    (timestamp : R) (samples : list Z) (st : Engine) :
  emotionInRange (emotion props) ->
  Forall frameInRange (visemeTimelineRef st) ->
  let st' := updateLoop props timestamp samples st in
  match driverSignal props timestamp samples st with
  | Some v =>
      lipState st' = fst (composePose props timestamp v (randomRef st))
      /\ poseWithinComputedRange (lipState st')
      /\ nineWithinUnit (lipState st')
  | None => lipState st' = lipState st
  end.
Proof.
  intros He HF st'. subst st'. rewrite updateLoop_pose.
  destruct (driverSignal props timestamp samples st) as [v|] eqn:Hv;
    [|reflexivity].
  pose proof (driverSignal_in_range _ _ _ _ _ HF Hv) as Hr.
  pose proof (composePose_range props timestamp v (randomRef st) He Hr) as Hp.
  split; [reflexivity|]. split; [exact Hp|].
  unfold poseWithinComputedRange in Hp. unfold nineWithinUnit.
  repeat split; lra.
Qed.

Lemma updateLoop_pose_ranges_witness :
  let props := heyProps keen in
  let st := snd (startPreviewEnter browser props textOptions 0 (mounted props true)) in
  match driverSignal props 0 [] st with
  | Some v =>
      lipState (updateLoop props 0 [] st)
      = fst (composePose props 0 v (randomRef st))
      /\ poseWithinComputedRange (lipState (updateLoop props 0 [] st))
      /\ nineWithinUnit (lipState (updateLoop props 0 [] st))
  | None => lipState (updateLoop props 0 [] st) = lipState st
  end.
Proof.
  intros props st.
  apply (updateLoop_pose_ranges props 0 [] st).
  - unfold emotionInRange, props. cbn. lra.
  - apply (timeline_in_range (spokenText props) (emotion props) (seed props)).
Defined.

(** ** Playback controller *)

(** C10.  Through [startPreview] in text mode the synthesizer never takes its
    empty-text branch: the text it is given always has a word, and for an
    empty or white-space-only script both the timeline and the utterance are
    built from the fixed phrase. *)
Theorem startPreview_text_never_falls_back (pf : Platform)
    (props : UseLipSyncEngineProps) (options : StartPreviewOptions) (now : R)
    (st : Engine) :
  requestedMode options st = TextMode ->
  ttsSupported st = true ->
  forceRestart options || negb (isSpeaking st) = true ->
  let st' := snd (startPreviewEnter pf props options now st) in
  let text := spokenText props in
  let timeline := buildVisemeTimeline text (emotion props) (seed props) in
  getWords text <> []
  /\ visemeTimelineRef st' = frames timeline
  /\ visemeDurationRef st' = duration timeline
  /\ duration timeline
     = Rmax (INR (List.length (getWords text)) * estimateWordDuration (emotion props)
             + 1.2) 2
  /\ ttsUtteranceRef st' = Some (makeUtterance props text)
  /\ speechQueue st' = [makeUtterance props text]
  /\ utteranceText (makeUtterance props text) = text
  /\ (forallb isSpace (script props) = true -> text = defaultPhrase).
Proof.
  intros Hmode Htts Hgo. cbn zeta.
  pose proof (spokenText_words props) as Hw.
  split; [exact Hw|].
  assert (Hst : snd (startPreviewEnter pf props options now st)
                = startPreviewText props
                    (set_startTimeRef now
                       (cleanupRAF
                          ((if fromExport options then fun s => s else resetLipState)
                             (set_modeRef TextMode st))))).
  { unfold startPreviewEnter. unfold requestedMode in Hmode. rewrite Hmode.
    replace (isSpeaking (if fromExport options then set_modeRef TextMode st
                         else resetLipState (set_modeRef TextMode st)))
      with (isSpeaking st) by (destruct (fromExport options), st; reflexivity).
    destruct (forceRestart options), (isSpeaking st); try discriminate;
      cbn [negb andb snd]; destruct (fromExport options); reflexivity. }
  rewrite Hst. clear Hst Hmode Hgo. unfold startPreviewText.
  assert (Ht : ttsSupported
                 (set_startTimeRef now
                    (cleanupRAF
                       ((if fromExport options then fun s => s else resetLipState)
                          (set_modeRef TextMode st)))) = true).
  { rewrite <- Htts. clear Htts.
    destruct (fromExport options); engine_cases st; reflexivity. }
  rewrite Ht. cbn [negb]. clear Ht Htts.
  split; [|split; [|split; [|split; [|split; [|split]]]]].
  - destruct (fromExport options); engine_cases st; reflexivity.
  - destruct (fromExport options); engine_cases st; reflexivity.
  - destruct (getWords (spokenText props)) as [|w ws] eqn:E; [congruence|].
    apply (timeline_words w ws (emotion props) (seed props) _ E).
  - destruct (fromExport options); engine_cases st; reflexivity.
  - destruct (fromExport options); engine_cases st; reflexivity.
  - reflexivity.
  - apply spokenText_blank.
Qed.

Lemma startPreview_text_never_falls_back_witness :
  let st' :=
    snd (startPreviewEnter browser blankProps textOptions 0
           (mounted blankProps true)) in
  spokenText blankProps = defaultPhrase
  /\ getWords defaultPhrase <> []
  /\ visemeTimelineRef st'
     = frames (buildVisemeTimeline defaultPhrase calm 0.25)
  /\ ttsUtteranceRef st' = Some (makeUtterance blankProps defaultPhrase).
Proof.
  destruct (startPreview_text_never_falls_back browser blankProps textOptions 0
              (mounted blankProps true) eq_refl eq_refl eq_refl)
    as (Hw & Ht & _ & _ & Hu & _ & _ & Hb).
  pose proof (Hb eq_refl) as Hp.
  rewrite Hp in Hw, Ht, Hu.
  exact (conj Hp (conj Hw (conj Ht Hu))).
Defined.

(** What a call that finds a session playing, and is not forced, does. *)
Lemma startPreviewEnter_guarded (pf : Platform) (props : UseLipSyncEngineProps)
    (options : StartPreviewOptions) (now : R) (st : Engine) :
  isSpeaking st = true -> forceRestart options = false ->
  startPreviewEnter pf props options now st
  = (Returned,
     (if fromExport options then fun s => s else resetLipState)
       (set_modeRef (requestedMode options st) st)).
Proof.
  intros Hs Hf. unfold startPreviewEnter, requestedMode. rewrite Hf.
  replace (isSpeaking (if fromExport options then _ else _)) with true
    by (rewrite <- Hs; destruct (fromExport options), st; reflexivity).
  destruct (fromExport options); reflexivity.
Qed.

Lemma engine_act_call (pf : Platform) (props : UseLipSyncEngineProps)
    (options : StartPreviewOptions) (now : R) (w : World) :
  engine (act pf props (Call options now) w)
  = snd (startPreviewEnter pf props options now (engine w)).
Proof.
  cbn [act]. now destruct (startPreviewEnter pf props options now (engine w)).
Qed.

Lemma engine_act_occur (pf : Platform) (props : UseLipSyncEngineProps)
    (ev : Event) (w : World) :
  engine (act pf props (Occur ev) w) = handle props ev (engine w).
Proof. reflexivity. Qed.

Lemma driverSignal_text (props : UseLipSyncEngineProps) (timestamp : R)
    (samples : list Z) (st : Engine) :
  modeRef st = TextMode ->
  (timestamp - startTimeRef st) / 1000 <= visemeDurationRef st + 0.4 ->
  driverSignal props timestamp samples st
  = Some (sampleViseme (visemeTimelineRef st)
            ((timestamp - startTimeRef st) / 1000)).
Proof.
  intros Hm Hle. unfold driverSignal. rewrite Hm, (gtb_false _ _ Hle).
  now rewrite andb_false_r.
Qed.

Lemma updateLoop_running (props : UseLipSyncEngineProps) (timestamp : R)
    (samples : list Z) (st : Engine) (v : Viseme) :
  driverSignal props timestamp samples st = Some v ->
  updateLoop props timestamp samples st
  = armClock
      (set_lipState (fst (composePose props timestamp v (randomRef st)))
         (set_randomRef (snd (composePose props timestamp v (randomRef st))) st)).
Proof.
  intros H. unfold updateLoop. rewrite H.
  now destruct (composePose props timestamp v (randomRef st)).
Qed.

Lemma bodySway_composePose (props : UseLipSyncEngineProps) (timestamp : R)
    (viseme : Viseme) (value : R) :
  bodySway (fst (composePose props timestamp viseme value))
  = sin (timestamp / 2500) * 0.25 + visemeMouth viseme * 0.2.
Proof.
  destruct (composePose_draws props timestamp viseme value)
    as (r1 & r2 & r3 & r4 & r5 & r6 & r7 & r8 & _ & _ & ->).
  reflexivity.
Qed.

(** C5, as stated, fails: a text session is started and publishes a pose;
    an unforced [startPreview] then returns at once, yet it has changed the
    pose. *)
Lemma unforced_start_changes_pose :
  let props := heyProps calm in
  let st :=
    engine (actAll browser props [Call textOptions 0; Occur (Frame 1 0 [])]
              (freshWorld props)) in
  isSpeaking st = true
  /\ forceRestart noOptions = false
  /\ fst (startPreviewEnter browser props noOptions 1 st) = Returned
  /\ lipState (snd (startPreviewEnter browser props noOptions 1 st))
     <> lipState st.
Proof.
  intros props st.
  set (s1 := cancelAnimationFrame 1
               (snd (startPreviewEnter browser props textOptions 0
                       (mounted props true)))).
  set (tl := buildVisemeTimeline (spokenText props) (emotion props) (seed props)).
  set (v := sampleViseme (frames tl) ((0 - 0) / 1000)).
  assert (Hd : driverSignal props 0 [] s1 = Some v).
  { apply (driverSignal_text props 0 [] s1 eq_refl).
    change (visemeDurationRef s1) with (duration tl).
    change (startTimeRef s1) with 0.
    pose proof (timeline_duration_min (spokenText props) (emotion props)
                  (seed props)). fold tl in H. lra. }
  assert (Hst : st = updateLoop props 0 [] s1).
  { unfold st, actAll. cbn [fold_left].
    rewrite engine_act_occur, engine_act_call.
    cbn [freshWorld engine handle].
    replace (memId 1 (pendingFrames
               (snd (startPreviewEnter browser props textOptions 0
                       (mounted props true))))) with true by reflexivity.
    reflexivity. }
  rewrite (updateLoop_running _ _ _ _ _ Hd) in Hst.
  assert (Hs : isSpeaking st = true) by (rewrite Hst; reflexivity).
  assert (Hb : 0.01 <= bodySway (lipState st)).
  { rewrite Hst.
    change (0.01 <= bodySway (fst (composePose props 0 v (randomRef s1)))).
    rewrite bodySway_composePose.
    assert (Hv : visemeInRange v)
      by (apply sampleViseme_in_range, timeline_in_range).
    destruct Hv as [Hm _].
    replace (0 / 2500) with 0 by lra. rewrite sin_0. lra. }
  split; [exact Hs|]. split; [reflexivity|].
  rewrite (startPreviewEnter_guarded browser props noOptions 1 st Hs eq_refl).
  split; [reflexivity|].
  cbn [snd noOptions fromExport]. intros E.
  assert (E' : bodySway (lipState (resetLipState
                 (set_modeRef (requestedMode noOptions st) st)))
               = bodySway (lipState st)) by (rewrite E; reflexivity).
  change (0 = bodySway (lipState st)) in E'. lra.
Qed.

(** C5, amended.  When a session is playing and the call is not forced,
    [startPreview] returns at once and leaves the start timestamp, the
    timeline and its duration, the clock registration, the pending frames,
    the playing flag, the audio element, the speech queue and the generator
    as they were; it does record the requested mode, and unless called from
    export it resets the mouth, hand and sway channels of the pose. *)
Theorem startPreview_unforced_while_speaking (pf : Platform)
    (props : UseLipSyncEngineProps) (options : StartPreviewOptions) (now : R)
    (st : Engine) :
  isSpeaking st = true -> forceRestart options = false ->
  let r := startPreviewEnter pf props options now st in
  let st' := snd r in
  fst r = Returned
  /\ (startTimeRef st' = startTimeRef st
      /\ visemeTimelineRef st' = visemeTimelineRef st
      /\ visemeDurationRef st' = visemeDurationRef st
      /\ rafRef st' = rafRef st
      /\ pendingFrames st' = pendingFrames st
      /\ nextFrameId st' = nextFrameId st)
  /\ (isSpeaking st' = true
      /\ audioRef st' = audioRef st
      /\ speechQueue st' = speechQueue st
      /\ ttsUtteranceRef st' = ttsUtteranceRef st
      /\ randomRef st' = randomRef st)
  /\ modeRef st' = requestedMode options st
  /\ lipState st' = poseAfterReset options st
  /\ (sourceMode options = None -> fromExport options = true -> st' = st).
Proof.
  intros Hs Hf. cbn zeta.
  rewrite (startPreviewEnter_guarded pf props options now st Hs Hf).
  cbn [fst snd]. unfold poseAfterReset, requestedMode.
  split; [reflexivity|].
  split; [|split; [|split; [|split]]].
  - destruct (fromExport options), st; repeat split; reflexivity.
  - destruct (fromExport options), st; cbn in Hs; subst; repeat split; reflexivity.
  - destruct (fromExport options), st; reflexivity.
  - destruct (fromExport options), st; reflexivity.
  - intros -> ->. destruct st; reflexivity.
Qed.

Lemma startPreview_unforced_while_speaking_witness :
  let props := heyProps calm in
  let st := snd (startPreviewEnter browser props textOptions 0 (mounted props true)) in
  let st' := snd (startPreviewEnter browser props audioOptions 7 st) in
  startTimeRef st' = 0 /\ rafRef st' = Some 1%nat
  /\ pendingFrames st' = [1%nat] /\ modeRef st' = AudioMode.
Proof.
  intros props st.
  destruct (startPreview_unforced_while_speaking browser props audioOptions 7 st
              eq_refl eq_refl)
    as (_ & (Ht & _ & _ & Hr & Hp & _) & _ & Hm & _).
  exact (conj Ht (conj Hr (conj Hp Hm))).
Defined.

Lemma ensureAnalyser_fst (pf : Platform) (st : Engine) :
  fst (ensureAnalyser pf st) = hasWindow pf && hasElement st.
Proof. unfold hasElement. destruct pf. engine_cases st; reflexivity. Qed.

Lemma ensureAnalyser_keeps (pf : Platform) (st : Engine) :
  hasAudioLoaded (snd (ensureAnalyser pf st)) = hasAudioLoaded st
  /\ audioRef (snd (ensureAnalyser pf st)) = audioRef st.
Proof. destruct pf. engine_cases st; split; reflexivity. Qed.

Lemma entered_keeps (options : StartPreviewOptions) (mode : VoiceMode)
    (now : R) (st : Engine) :
  hasAudioLoaded (entered options mode now st) = hasAudioLoaded st
  /\ audioRef (entered options mode now st) = audioRef st
  /\ ttsSupported (entered options mode now st) = ttsSupported st.
Proof.
  unfold entered. destruct (fromExport options); engine_cases st;
    repeat split; reflexivity.
Qed.

(** What an audio-mode call whose precondition fails does, once past the
    guard. *)
Lemma startPreviewEnter_audio_refused (pf : Platform)
    (props : UseLipSyncEngineProps) (options : StartPreviewOptions) (now : R)
    (st : Engine) :
  requestedMode options st = AudioMode ->
  hasAudioLoaded st = false \/ hasWindow pf = false \/ audioRef st = None ->
  forceRestart options || negb (isSpeaking st) = true ->
  startPreviewEnter pf props options now st
  = (Returned, snd (ensureAnalyser pf (entered options AudioMode now st))).
Proof.
  intros Hm Hpre Hgo. unfold startPreviewEnter. unfold requestedMode in Hm.
  rewrite Hm.
  replace (isSpeaking (if fromExport options then _ else _))
    with (isSpeaking st) by (destruct (fromExport options), st; reflexivity).
  replace (negb (forceRestart options) && isSpeaking st) with false
    by (destruct (forceRestart options), (isSpeaking st);
        try reflexivity; discriminate).
  change (set_startTimeRef now (cleanupRAF _))
    with (entered options AudioMode now st).
  pose proof (ensureAnalyser_fst pf (entered options AudioMode now st)) as Hf.
  destruct (ensureAnalyser_keeps pf (entered options AudioMode now st)) as [Hl _].
  destruct (entered_keeps options AudioMode now st) as (Hl' & Ha' & _).
  destruct (ensureAnalyser pf (entered options AudioMode now st))
    as [analyser st1].
  cbn [fst snd] in *. rewrite Hl, Hl', Hf. unfold hasElement. rewrite Ha'.
  destruct Hpre as [H | [H | H]]; rewrite H.
  - now rewrite orb_true_r.
  - reflexivity.
  - now rewrite andb_false_r.
Qed.

Lemma cleanupRAF_pending_incl (st : Engine) (id : nat) :
  In id (pendingFrames (cleanupRAF st)) -> In id (pendingFrames st).
Proof.
  unfold cleanupRAF. destruct (rafRef st) as [[|n]|]; try (intros H; exact H).
  destruct st. cbn. intros H. now apply in_remove in H.
Qed.

(** C6, as stated, fails: during a text session with no audio loaded, a
    forced audio-mode start is refused, yet it has cancelled the session's
    clock and overwritten its start timestamp. *)
Lemma refused_audio_start_changes_state :
  let props := heyProps calm in
  let st :=
    snd (startPreviewEnter browser props textOptions 0 (mounted props true)) in
  let r := startPreviewEnter browser props forcedAudioOptions 5 st in
  (hasAudioLoaded st = false /\ isSpeaking st = true
   /\ rafRef st = Some 1%nat /\ pendingFrames st = [1%nat]
   /\ startTimeRef st = 0)
  /\ fst r = Returned
  /\ (rafRef (snd r) = None /\ pendingFrames (snd r) = []
      /\ startTimeRef (snd r) = 5)
  /\ snd r <> st.
Proof.
  intros props st r.
  split; [repeat split; reflexivity|].
  split; [reflexivity|].
  split; [repeat split; reflexivity|].
  intros E. apply (f_equal pendingFrames) in E. discriminate E.
Qed.

(** C6, amended.  An audio-mode [startPreview] whose precondition fails (no
    audio loaded, no window, or no audio element) returns without arming a
    clock or touching the audio element, and leaves the playing flag, the
    timeline, the speech queue and the generator as they were.  It does set
    the mode and, unless called from export, reset the mouth, hand and sway
    channels; and unless the already-playing guard stops it first, it cancels
    the registered clock and overwrites the start timestamp. *)
Theorem startPreview_audio_precondition (pf : Platform)
    (props : UseLipSyncEngineProps) (options : StartPreviewOptions) (now : R)
    (st : Engine) :
  requestedMode options st = AudioMode ->
  hasAudioLoaded st = false \/ hasWindow pf = false \/ audioRef st = None ->
  let r := startPreviewEnter pf props options now st in
  let st' := snd r in
  fst r = Returned
  /\ (nextFrameId st' = nextFrameId st
      /\ (forall id, In id (pendingFrames st') -> In id (pendingFrames st))
      /\ audioRef st' = audioRef st)
  /\ (isSpeaking st' = isSpeaking st
      /\ hasAudioLoaded st' = hasAudioLoaded st
      /\ visemeTimelineRef st' = visemeTimelineRef st
      /\ visemeDurationRef st' = visemeDurationRef st
      /\ speechQueue st' = speechQueue st
      /\ ttsUtteranceRef st' = ttsUtteranceRef st
      /\ randomRef st' = randomRef st)
  /\ modeRef st' = AudioMode
  /\ lipState st' = poseAfterReset options st
  /\ (if negb (forceRestart options) && isSpeaking st
      then startTimeRef st' = startTimeRef st
           /\ rafRef st' = rafRef st
           /\ pendingFrames st' = pendingFrames st
      else startTimeRef st' = now
           /\ rafRef st' = rafRef (cleanupRAF st)
           /\ pendingFrames st' = pendingFrames (cleanupRAF st)).
Proof.
  intros Hm Hpre. cbn zeta.
  destruct (negb (forceRestart options) && isSpeaking st) eqn:Hg.
  - apply andb_true_iff in Hg as [Hf Hs]. apply negb_true_iff in Hf.
    rewrite (startPreviewEnter_guarded pf props options now st Hs Hf).
    rewrite Hm. cbn [fst snd]. unfold poseAfterReset.
    destruct (fromExport options), st; cbn in Hs; subst;
      repeat split; try reflexivity; intros id H; exact H.
  - assert (Hgo : forceRestart options || negb (isSpeaking st) = true)
      by (destruct (forceRestart options), (isSpeaking st);
          try reflexivity; discriminate).
    rewrite (startPreviewEnter_audio_refused pf props options now st Hm Hpre Hgo).
    cbn [fst snd]. unfold poseAfterReset, entered.
    split; [reflexivity|].
    split; [|split; [|split; [|split]]].
    + split; [|split].
      * destruct (fromExport options), pf; engine_cases st; reflexivity.
      * intros id H. apply cleanupRAF_pending_incl.
        revert H. destruct (fromExport options), pf; engine_cases st;
          intros H; exact H.
      * destruct (fromExport options), pf; engine_cases st; reflexivity.
    + destruct (fromExport options), pf; engine_cases st;
        repeat split; reflexivity.
    + destruct (fromExport options), pf; engine_cases st; reflexivity.
    + destruct (fromExport options), pf; engine_cases st; reflexivity.
    + destruct (fromExport options), pf; engine_cases st;
        repeat split; reflexivity.
Qed.

Lemma startPreview_audio_precondition_witness :
  let props := heyProps calm in
  let r := startPreviewEnter browser props audioOptions 3 (mounted props true) in
  fst r = Returned
  /\ pendingFrames (snd r) = [] /\ nextFrameId (snd r) = 1%nat
  /\ audioRef (snd r) = audioRef (mounted props true)
  /\ startTimeRef (snd r) = 3.
Proof.
  intros props.
  destruct (startPreview_audio_precondition browser props audioOptions 3
              (mounted props true) eq_refl (or_introl eq_refl))
    as (Hr & (Hn & _ & Ha) & _ & _ & _ & Hg).
  cbn [negb andb audioOptions forceRestart mounted isSpeaking] in Hg.
  destruct Hg as (Ht & _ & Hp).
  exact (conj Hr (conj Hp (conj Hn (conj Ha Ht)))).
Defined.

(** ** The animation clock *)

Lemma actAll_app (pf : Platform) (props : UseLipSyncEngineProps)
    (l1 l2 : list Action) (w : World) :
  actAll pf props (l1 ++ l2) w = actAll pf props l2 (actAll pf props l1 w).
Proof. apply fold_left_app. Qed.

(** C3 fails on the code.  After two overlapping audio-mode starts two
    animation frames are pending although [rafRef] holds one of them; both
    callbacks run and re-arm themselves, and after [stopPreview] one of the
    two clocks is still armed. *)
Theorem overlapping_starts_arm_two_clocks :
  let props := heyProps calm in
  let w := actAll browser props overlappingStarts (loadedWorld props) in
  let w' := actAll browser props frameThenStop w in
  (pendingFrames (engine w) = [1; 2]%nat /\ rafRef (engine w) = Some 2%nat
   /\ ~ oneClock (engine w))
  /\ pendingFrames
       (engine (actAll browser props
                  [Occur (Frame 1 16 silence); Occur (Frame 2 16 silence)] w))
     = [3; 4]%nat
  /\ (isSpeaking (engine w') = false /\ rafRef (engine w') = None
      /\ pendingFrames (engine w') = [3%nat]).
Proof.
  intros props w w'.
  assert (Hp : pendingFrames (engine w) = [1; 2]%nat) by reflexivity.
  split; [|split].
  - split; [exact Hp|]. split; [reflexivity|].
    intros (_ & _ & H). rewrite Hp in H. exact H.
  - reflexivity.
  - repeat split; reflexivity.
Qed.

(** ** Clock and export invariants *)

Lemma remove_single (id : nat) : remove Nat.eq_dec id [id] = [].
Proof. cbn. destruct (Nat.eq_dec id id); [reflexivity | congruence]. Qed.

Lemma memId_single (id x : nat) : memId id [x] = true -> x = id.
Proof.
  unfold memId. cbn. rewrite orb_false_r. intros H.
  symmetry. now apply Nat.eqb_eq.
Qed.

(** Finishes a goal about the clock fields once the state is taken apart. *)
Ltac clock_done :=
  unfold oneClock, clockIdle, exportOpen in *; unfold_engine;
  repeat match goal with
         | H : _ /\ _ |- _ => destruct H
         end;
  subst; cbn [app remove] in *;
  repeat match goal with
         | |- context [Nat.eq_dec ?a ?b] => destruct (Nat.eq_dec a b)
         end;
  repeat split; try congruence; try lia; try tauto; auto.

Lemma oneClock_idle (st : Engine) : clockIdle st -> oneClock st.
Proof.
  intros (Hn & Hr & Hp). unfold oneClock. rewrite Hp. tauto.
Qed.

Lemma cleanupRAF_idle (st : Engine) :
  oneClock st -> clockIdle (cleanupRAF st) /\ rafRef (cleanupRAF st) = None.
Proof.
  take_apart st. unfold oneClock, clockIdle, cleanupRAF. cbn.
  intros (Hn & Hr & Hp).
  destruct raf as [[|n]|]; cbn.
  - congruence.
  - destruct pending as [|x [|y l]]; try contradiction.
    + cbn. repeat split; try assumption; congruence.
    + injection Hp as <-. rewrite remove_single.
      repeat split; try assumption; congruence.
  - destruct pending as [|x [|y l]]; try contradiction; try discriminate.
    repeat split; try assumption; congruence.
Qed.

Lemma cleanupRAF_keeps_idle (st : Engine) :
  clockIdle st -> clockIdle (cleanupRAF st).
Proof. intros H. apply cleanupRAF_idle. now apply oneClock_idle. Qed.

Lemma armClock_one (st : Engine) : clockIdle st -> oneClock (armClock st).
Proof.
  take_apart st. unfold clockIdle, oneClock, armClock, requestAnimationFrame.
  cbn. intros (Hn & Hr & ->). cbn.
  repeat split; try lia. intros [= E]. lia.
Qed.

Lemma cancel_fired (st : Engine) (id : nat) :
  oneClock st -> memId id (pendingFrames st) = true ->
  clockIdle (cancelAnimationFrame id st).
Proof.
  take_apart st. unfold oneClock, clockIdle, cancelAnimationFrame. cbn.
  intros (Hn & Hr & Hp) Hm.
  destruct pending as [|x [|y l]]; try contradiction; try discriminate.
  apply memId_single in Hm. subst x. rewrite remove_single. tauto.
Qed.

(** Two states with the same clock fields. *)
Lemma oneClock_same (a b : Engine) :
  nextFrameId b = nextFrameId a -> rafRef b = rafRef a ->
  pendingFrames b = pendingFrames a -> oneClock a -> oneClock b.
Proof. unfold oneClock. intros -> -> ->. tauto. Qed.

Lemma clockIdle_same (a b : Engine) :
  nextFrameId b = nextFrameId a -> rafRef b = rafRef a ->
  pendingFrames b = pendingFrames a -> clockIdle a -> clockIdle b.
Proof. unfold clockIdle. intros -> -> ->. tauto. Qed.

Lemma shutdownPlayback_clock (st : Engine) :
  nextFrameId (shutdownPlayback st) = nextFrameId (cleanupRAF st)
  /\ rafRef (shutdownPlayback st) = rafRef (cleanupRAF st)
  /\ pendingFrames (shutdownPlayback st) = pendingFrames (cleanupRAF st).
Proof. engine_cases st; repeat split; reflexivity. Qed.

Lemma shutdownPlayback_idle (st : Engine) :
  oneClock st ->
  clockIdle (shutdownPlayback st) /\ rafRef (shutdownPlayback st) = None.
Proof.
  intros H. destruct (cleanupRAF_idle st H) as [Hi Hr].
  destruct (shutdownPlayback_clock st) as (Hn & Hr' & Hp).
  split; [|congruence]. now apply (clockIdle_same (cleanupRAF st)).
Qed.

(** What [shutdownPlayback] leaves behind. *)
Lemma shutdownPlayback_stops (st : Engine) :
  isSpeaking (shutdownPlayback st) = false
  /\ exportResolveRef (shutdownPlayback st) = false
  /\ (exportOpen st -> exportSettled (shutdownPlayback st) = true)
  /\ match audioRef (shutdownPlayback st) with
     | Some a => paused a = true /\ currentTime a = 0
     | None => audioRef st = None
     end.
Proof.
  unfold exportOpen.
  engine_cases st; repeat split; try reflexivity; intros [H | H];
    first [exact H | discriminate H | reflexivity].
Qed.


Lemma sameControl_trans (a b c : Engine) :
  sameControl a b -> sameControl b c -> sameControl a c.
Proof.
  unfold sameControl. intros (H1 & H2 & H3 & H4 & H5) (K1 & K2 & K3 & K4 & K5).
  repeat split; congruence.
Qed.

Lemma sameControl_one (a b : Engine) :
  sameControl a b -> oneClock a -> oneClock b.
Proof. intros (H1 & H2 & H3 & _). now apply oneClock_same. Qed.

Lemma sameControl_idle (a b : Engine) :
  sameControl a b -> clockIdle a -> clockIdle b.
Proof. intros (H1 & H2 & H3 & _). now apply clockIdle_same. Qed.


Lemma ensureAnalyser_control (pf : Platform) (st : Engine) :
  sameControl st (snd (ensureAnalyser pf st)).
Proof.
  unfold sameControl. destruct pf. engine_cases st; repeat split; reflexivity.
Qed.

Lemma startPreviewPlay_control (st : Engine) :
  sameControl st (snd (startPreviewPlay st)).
Proof. unfold sameControl. engine_cases st; repeat split; reflexivity. Qed.

(** Up to the branch on the mode a call cancels the registered clock. *)
Lemma entered_idle (options : StartPreviewOptions) (mode : VoiceMode) (now : R)
    (st : Engine) :
  oneClock st -> clockIdle (entered options mode now st).
Proof.
  intros H. unfold entered. cbn zeta.
  set (st1 := if fromExport options then _ else _).
  assert (H1 : oneClock st1).
  { apply (oneClock_same st); try assumption;
      unfold st1; destruct (fromExport options), st; reflexivity. }
  destruct (cleanupRAF_idle st1 H1) as [Hi _].
  apply (clockIdle_same (cleanupRAF st1)); try assumption;
    destruct (cleanupRAF st1); reflexivity.
Qed.


Lemma startPreviewText_one (props : UseLipSyncEngineProps) (st : Engine) :
  clockIdle st -> oneClock (startPreviewText props st).
Proof.
  intros H. unfold startPreviewText.
  destruct (ttsSupported st); cbn [negb]; [|now apply oneClock_idle].
  apply armClock_one.
  apply (clockIdle_same st); try assumption; engine_cases st; reflexivity.
Qed.




(** The ways a call of [startPreview] can leave its first run. *)
Lemma startPreviewEnter_cases (pf : Platform) (props : UseLipSyncEngineProps)
    (options : StartPreviewOptions) (now : R) (st : Engine) :
  let mode := requestedMode options st in
  let r := startPreviewEnter pf props options now st in
  let st1 := snd (ensureAnalyser pf (entered options mode now st)) in
  (isSpeaking st = true /\ forceRestart options = false /\ fst r = Returned
   /\ sameControl st (snd r))
  \/ (mode = TextMode
      /\ r = (Returned, startPreviewText props (entered options mode now st)))
  \/ (mode = AudioMode
      /\ (r = (Returned, st1) \/ r = (AwaitResume, st1)
          \/ r = startPreviewPlay st1)).
Proof.
  cbn zeta. unfold startPreviewEnter. fold (requestedMode options st).
  set (mode := requestedMode options st).
  replace (isSpeaking (if fromExport options then _ else _))
    with (isSpeaking st) by (destruct (fromExport options), st; reflexivity).
  destruct (negb (forceRestart options) && isSpeaking st) eqn:Hg.
  - left. apply andb_true_iff in Hg as [Hf Hs]. apply negb_true_iff in Hf.
    repeat split; try assumption; destruct (fromExport options), st; reflexivity.
  - right. change (set_startTimeRef now (cleanupRAF _))
      with (entered options mode now st).
    destruct mode; [left; now split|]. right. split; [reflexivity|].
    destruct (ensureAnalyser pf (entered options AudioMode now st))
      as [analyser st1]. cbn [snd].
    destruct (negb analyser || negb (hasAudioLoaded st1)); [now left|].
    destruct (audioContextRef st1) as [[|]|]; auto.
Qed.


Lemma updateLoop_one (props : UseLipSyncEngineProps) (timestamp : R)
    (samples : list Z) (st : Engine) :
  clockIdle st -> oneClock (updateLoop props timestamp samples st).
Proof.
  intros H. unfold updateLoop.
  destruct (driverSignal props timestamp samples st) as [v|].
  - destruct (composePose props timestamp v (randomRef st)) as [pose value'].
    apply armClock_one. apply (clockIdle_same st); try assumption;
      destruct st; reflexivity.
  - apply oneClock_idle, shutdownPlayback_idle. now apply oneClock_idle.
Qed.


Lemma handle_one (props : UseLipSyncEngineProps) (ev : Event) (st : Engine) :
  oneClock st -> oneClock (handle props ev st).
Proof.
  intros H. destruct ev as [id timestamp samples| | |]; cbn [handle].
  - destruct (memId id (pendingFrames st)) eqn:Hm; [|exact H].
    apply updateLoop_one. now apply cancel_fired.
  - destruct (speechQueue st) as [|u q]; [exact H|].
    apply oneClock_idle, shutdownPlayback_idle.
    apply (oneClock_same st); try assumption; destruct st; reflexivity.
  - destruct (audioRef st) as [a|]; [|exact H].
    destruct (onended a && negb (paused a)); [|exact H].
    now apply oneClock_idle, shutdownPlayback_idle.
  - unfold stopPreview. destruct (shutdownPlayback_idle st H) as [Hi _].
    apply oneClock_idle. apply (clockIdle_same (shutdownPlayback st));
      try assumption; destruct (shutdownPlayback st); reflexivity.
Qed.



Lemma handleAll_keeps (P : Engine -> Prop) (props : UseLipSyncEngineProps) :
  (forall ev st, P st -> P (handle props ev st)) ->
  forall evs st, P st -> P (handleAll props evs st).
Proof.
  intros Hstep. unfold handleAll.
  induction evs as [|ev evs IH]; intros st H; cbn [fold_left]; [exact H|].
  apply IH, Hstep, H.
Qed.

Lemma startPreviewEnter_one (pf : Platform) (props : UseLipSyncEngineProps)
    (options : StartPreviewOptions) (now : R) (st : Engine) :
  oneClock st ->
  oneClock (snd (startPreviewEnter pf props options now st))
  /\ (fst (startPreviewEnter pf props options now st) <> Returned ->
      clockIdle (snd (startPreviewEnter pf props options now st))).
Proof.
  intros H.
  pose proof (startPreviewEnter_cases pf props options now st) as Hc.
  cbn zeta in Hc.
  set (mode := requestedMode options st) in *.
  set (X := entered options mode now st) in *.
  assert (HiX : clockIdle X) by now apply entered_idle.
  destruct Hc as [(Hs & Hf & Hr & Hsame) | [(Hm & Hr) | (Hm & Hr)]].
  - split; [now apply (sameControl_one st) | congruence].
  - rewrite Hr. cbn [fst snd]. split; [now apply startPreviewText_one | congruence].
  - set (st1 := snd (ensureAnalyser pf X)) in *.
    assert (Hi1 : clockIdle st1)
      by (apply (sameControl_idle X); [apply ensureAnalyser_control | assumption]).
    destruct Hr as [Hr | [Hr | Hr]]; rewrite Hr; cbn [fst snd].
    + split; [now apply oneClock_idle | congruence].
    + split; [now apply oneClock_idle | auto].
    + pose proof (startPreviewPlay_control st1) as Hp.
      assert (clockIdle (snd (startPreviewPlay st1)))
        by now apply (sameControl_idle st1).
      split; [now apply oneClock_idle | auto].
Qed.

Lemma text_call_returns (pf : Platform) (props : UseLipSyncEngineProps)
    (options : StartPreviewOptions) (now : R) (st : Engine) :
  sourceMode options = Some TextMode ->
  fst (startPreviewEnter pf props options now st) = Returned.
Proof.
  intros Hm.
  pose proof (startPreviewEnter_cases pf props options now st) as Hc.
  cbn zeta in Hc. unfold requestedMode in Hc. rewrite Hm in Hc.
  destruct Hc as [(_ & _ & Hr & _) | [(_ & Hr) | (Hbad & _)]].
  - exact Hr.
  - now rewrite Hr.
  - discriminate Hbad.
Qed.

(** An event or a text-mode call keeps the single clock and suspends
    nothing. *)
Lemma act_text_one (pf : Platform) (props : UseLipSyncEngineProps)
    (a : Action) (w : World) :
  textOnly a -> suspended w = [] -> oneClock (engine w) ->
  suspended (act pf props a w) = [] /\ oneClock (engine (act pf props a w)).
Proof.
  intros Ha Hs Hc.
  destruct a as [options now | n | ev]; cbn [textOnly] in Ha.
  - split.
    + pose proof (text_call_returns pf props options now (engine w) Ha) as Hr.
      cbn [act].
      destruct (startPreviewEnter pf props options now (engine w)) as [k s].
      cbn [fst] in Hr. subst k. cbn. exact Hs.
    + rewrite engine_act_call. now apply startPreviewEnter_one.
  - contradiction.
  - split; [exact Hs|]. rewrite engine_act_occur. now apply handle_one.
Qed.




(** ** Export *)





Lemma eventStep_noExport (l : list Step) :
  Forall eventStep l -> Forall noExport l.
Proof.
  intros H. eapply Forall_impl; [|exact H].
  intros [[| |]| |]; cbn; tauto.
Qed.






(** The "Hey there" script lasts between 2 and 2.4 seconds. *)
Lemma hey_duration (props : UseLipSyncEngineProps) :
  script props = lit "Hey there" ->
  duration (buildVisemeTimeline (spokenText props) (emotion props) (seed props))
  <= 2.4.
Proof.
  intros Hs.
  assert (Ht : spokenText props = lit "Hey there")
    by (unfold spokenText; rewrite Hs; reflexivity).
  rewrite Ht.
  destruct (timeline_words (lit "Hey") [lit "there"] (emotion props)
              (seed props) (lit "Hey there") eq_refl) as [Hd _].
  rewrite Hd. pose proof (estimateWordDuration_range (emotion props)).
  replace (INR (List.length [lit "Hey"; lit "there"])) with 2
    by (cbn [List.length INR]; lra).
  unfold Rmax. destruct (Rle_dec _ _); lra.
Qed.

(** Every synthesized timeline has at least 120 frames. *)
Lemma timeline_has_frame (text : JsString) (emotion : EmotionPreset) (seed : R)
    (i : nat) :
  (i < 120)%nat ->
  exists f, nth_error (frames (buildVisemeTimeline text emotion seed)) i = Some f.
Proof.
  intros Hi.
  pose proof (timeline_frames text emotion seed) as HF. cbn zeta in HF.
  apply Forall2_length in HF. unfold indicesBelow in HF.
  rewrite length_seq in HF.
  pose proof (frameCount_at_least _ (timeline_duration_min text emotion seed)).
  destruct (nth_error (frames (buildVisemeTimeline text emotion seed)) i)
    as [f|] eqn:E; [now exists f|].
  apply nth_error_None in E. lia.
Qed.

(** * Further properties *)

(** ** Words *)

Lemma hasWord_false_blank (s : JsString) :
  hasWord s = false <-> forallb isSpace s = true.
Proof.
  induction s as [|c r IH]; cbn [hasWord existsb forallb]; [tauto|].
  fold (hasWord r). destruct (isSpace c); cbn [negb orb andb]; [exact IH|].
  split; discriminate.
Qed.

Lemma replaceRuns_only_space (inRun : bool) (s : JsString) :
  Forall (fun c => isSpace c = true -> c = space) (replaceRuns inRun s).
Proof.
  revert inRun. induction s as [|c r IH]; intros inRun; cbn [replaceRuns].
  - constructor.
  - destruct (isSpace c) eqn:Hc.
    + destruct inRun; [apply IH|]. constructor; [reflexivity | apply IH].
    + constructor; [congruence | apply IH].
Qed.

Lemma trimStart_Forall (P : N -> Prop) (s : JsString) :
  Forall P s -> Forall P (trimStart s).
Proof.
  induction 1 as [|c r Hc Hr IH]; cbn [trimStart]; [constructor|].
  destruct (isSpace c); [exact IH | now constructor].
Qed.

Lemma trim_Forall (P : N -> Prop) (s : JsString) :
  Forall P s -> Forall P (trim s).
Proof.
  intros H. unfold trim, trimEnd.
  apply Forall_rev, trimStart_Forall, Forall_rev, trimStart_Forall, H.
Qed.

Lemma split_Forall (P : N -> Prop) (s : JsString) :
  Forall P s -> Forall (Forall (fun c => P c /\ c <> space)) (split s).
Proof.
  induction 1 as [|c r Hc Hr IH]; cbn [split].
  - repeat constructor.
  - destruct (N.eqb c space) eqn:E.
    + constructor; [constructor | exact IH].
    + apply N.eqb_neq in E.
      destruct (split r) as [|w ws]; [repeat constructor; assumption|].
      inversion IH; subst. constructor; [|assumption].
      constructor; [split; assumption | assumption].
Qed.

Lemma getWords_words_clean (text : JsString) :
  Forall cleanWord (getWords text).
Proof.
  unfold getWords.
  pose proof (split_Forall _ _
                (trim_Forall _ _ (replaceRuns_only_space false text))) as H.
  induction H as [|w ws Hw _ IH]; cbn [filter]; [constructor|].
  destruct w as [|c r]; cbn [nonEmpty]; [exact IH|].
  constructor; [|exact IH]. split; [discriminate|].
  eapply Forall_impl; [|exact Hw]. cbn beta. intros a [Ha Hn].
  destruct (isSpace a); [now specialize (Ha eq_refl) | reflexivity].
Qed.

(** X1.  Every word returned by [getWords] is non-empty and contains no
    white-space code unit. *)
Theorem getWords_clean (text : JsString) : Forall cleanWord (getWords text).
Proof. apply getWords_words_clean. Qed.

(** X2.  [getWords] returns no word exactly when the text has no code unit
    other than white space (the empty text included). *)
Theorem getWords_nil_iff (text : JsString) :
  getWords text = [] <-> forallb isSpace text = true.
Proof.
  split.
  - intros H. apply hasWord_false_blank.
    destruct (hasWord text) eqn:E; [|reflexivity].
    now apply getWords_hasWord in E.
  - intros H. unfold getWords.
    assert (Hb : forallb isSpace (replaceRuns false text) = true).
    { apply hasWord_false_blank. rewrite hasWord_replaceRuns.
      now apply hasWord_false_blank. }
    now rewrite (trim_blank _ Hb).
Qed.

Lemma replaceRuns_word (w rest : JsString) (inRun : bool) :
  cleanWord w ->
  replaceRuns inRun (w ++ rest) = w ++ replaceRuns false rest.
Proof.
  intros [Hne Hw]. destruct w as [|c r]; [congruence|]. clear Hne.
  revert c inRun Hw. induction r as [|d r IH]; intros c inRun Hw.
  - inversion Hw as [|? ? Hc _]; subst. cbn. now rewrite Hc.
  - inversion Hw as [|? ? Hc Hr]; subst.
    cbn [app replaceRuns]. rewrite Hc. f_equal.
    apply (IH d false Hr).
Qed.

Lemma replaceRuns_unwords (ws : list JsString) :
  Forall cleanWord ws -> replaceRuns false (unwords ws) = unwords ws.
Proof.
  induction 1 as [|w rest Hw Hrest IH]; [reflexivity|].
  destruct rest as [|v rest].
  - cbn [unwords]. rewrite <- (app_nil_r w) at 1.
    rewrite (replaceRuns_word w [] false Hw). cbn. now rewrite app_nil_r.
  - change (unwords (w :: v :: rest)) with (w ++ space :: unwords (v :: rest)).
    rewrite (replaceRuns_word w _ false Hw). f_equal.
    cbn [replaceRuns]. change (isSpace space) with true. cbn iota. f_equal.
    inversion Hrest as [|? ? Hv Hrest']; subst.
    revert IH. destruct rest as [|u rest].
    + cbn [unwords]. intros _. rewrite <- (app_nil_r v) at 1.
      rewrite (replaceRuns_word v [] true Hv). cbn. now rewrite app_nil_r.
    + change (unwords (v :: u :: rest)) with (v ++ space :: unwords (u :: rest)).
      rewrite (replaceRuns_word v _ true Hv), (replaceRuns_word v _ false Hv).
      exact (fun H => H).
Qed.

Lemma trimStart_nonspace (c : N) (r : JsString) :
  isSpace c = false -> trimStart (c :: r) = c :: r.
Proof. intros H. cbn. now rewrite H. Qed.

Lemma unwords_ends (w : JsString) (rest : list JsString) :
  Forall cleanWord (w :: rest) ->
  (exists c r, unwords (w :: rest) = c :: r /\ isSpace c = false)
  /\ (exists c r, unwords (w :: rest) = r ++ [c] /\ isSpace c = false).
Proof.
  intros H. split.
  - inversion H as [|? ? [Hne Hw] _]; subst.
    destruct w as [|c r]; [congruence|]. inversion Hw; subst.
    destruct rest; cbn [unwords]; eauto. exists c. eexists. split; [reflexivity|].
    assumption.
  - revert w H. induction rest as [|v rest IH]; intros w H.
    + inversion H as [|? ? [Hne Hw] _]; subst. cbn [unwords].
      destruct (exists_last Hne) as (r & c & ->).
      exists c, r. split; [reflexivity|].
      apply Forall_app in Hw as [_ Hc]. now inversion Hc.
    + inversion H as [|? ? _ Hrest]; subst.
      destruct (IH v Hrest) as (c & r & E & Hc).
      exists c, (w ++ space :: r).
      change (unwords (w :: v :: rest)) with (w ++ space :: unwords (v :: rest)).
      rewrite E. split; [|assumption].
      now rewrite <- app_assoc.
Qed.

Lemma trim_unwords (ws : list JsString) :
  Forall cleanWord ws -> trim (unwords ws) = unwords ws.
Proof.
  intros H. destruct ws as [|w rest]; [reflexivity|].
  destruct (unwords_ends w rest H) as [(c & r & E & Hc) (d & q & E' & Hd)].
  unfold trim, trimEnd. rewrite E, (trimStart_nonspace c r Hc), <- E, E'.
  rewrite rev_app_distr. cbn [rev app].
  rewrite (trimStart_nonspace d (rev q) Hd).
  cbn [rev]. now rewrite rev_involutive.
Qed.

Lemma clean_no_space (w : JsString) :
  cleanWord w -> Forall (fun c => N.eqb c space = false) w.
Proof.
  intros [_ H]. eapply Forall_impl; [|exact H]. cbn beta. intros a Ha.
  apply N.eqb_neq. intros ->. discriminate Ha.
Qed.

Lemma split_word (w rest : JsString) :
  Forall (fun c => N.eqb c space = false) w ->
  split (w ++ space :: rest) = w :: split rest.
Proof.
  induction 1 as [|c r Hc Hr IH]; [reflexivity|].
  cbn [app split]. rewrite Hc. change (r ++ space :: rest) with (r ++ space :: rest).
  now rewrite IH.
Qed.

Lemma split_single (w : JsString) :
  Forall (fun c => N.eqb c space = false) w -> split w = [w].
Proof.
  induction 1 as [|c r Hc Hr IH]; [reflexivity|].
  cbn [split]. now rewrite Hc, IH.
Qed.

Lemma split_unwords (w : JsString) (rest : list JsString) :
  Forall cleanWord (w :: rest) -> split (unwords (w :: rest)) = w :: rest.
Proof.
  revert w. induction rest as [|v rest IH]; intros w H.
  - inversion H; subst. cbn [unwords]. now apply split_single, clean_no_space.
  - inversion H as [|? ? Hw Hrest]; subst.
    change (unwords (w :: v :: rest)) with (w ++ space :: unwords (v :: rest)).
    rewrite split_word by now apply clean_no_space.
    now rewrite IH.
Qed.

Lemma getWords_of_unwords (ws : list JsString) :
  Forall cleanWord ws -> getWords (unwords ws) = ws.
Proof.
  intros H. unfold getWords.
  rewrite (replaceRuns_unwords ws H), (trim_unwords ws H).
  destruct ws as [|w rest]; [reflexivity|].
  rewrite (split_unwords w rest H).
  clear - H. induction H as [|v vs [Hne _] _ IH]; [reflexivity|].
  cbn [filter]. destruct v; [congruence|]. cbn [nonEmpty]. now rewrite IH.
Qed.

(** X3.  Splitting undoes joining: the words of clean words joined by single
    spaces are those words. *)
Theorem getWords_unwords (ws : list JsString) :
  Forall cleanWord ws -> getWords (unwords ws) = ws.
Proof. apply getWords_of_unwords. Qed.

Lemma getWords_unwords_witness :
  getWords (unwords [lit "Hey"; lit "there"]) = [lit "Hey"; lit "there"].
Proof.
  apply getWords_unwords.
  repeat constructor; try discriminate.
Defined.

(** X23.  The timeline depends on the text only through its words: texts
    with the same words give the same timeline, so the text may be replaced
    by its words joined with single spaces. *)
Theorem timeline_depends_on_words (text other : JsString)
    (emotion : EmotionPreset) (seed : R) :
  (getWords other = getWords text ->
   buildVisemeTimeline other emotion seed
   = buildVisemeTimeline text emotion seed)
  /\ buildVisemeTimeline (unwords (getWords text)) emotion seed
     = buildVisemeTimeline text emotion seed.
Proof.
  assert (H : forall a b, getWords a = getWords b ->
                buildVisemeTimeline a emotion seed
                = buildVisemeTimeline b emotion seed).
  { intros a b E. unfold buildVisemeTimeline. now rewrite E. }
  split; [apply H|].
  apply H. apply getWords_of_unwords, getWords_words_clean.
Qed.

Lemma timeline_depends_on_words_witness :
  buildVisemeTimeline (lit "  Hey   there ") calm 0.25
  = buildVisemeTimeline (lit "Hey there") calm 0.25.
Proof.
  exact (proj1 (timeline_depends_on_words (lit "Hey there")
                  (lit "  Hey   there ") calm 0.25) eq_refl).
Defined.

Lemma getWords_nil_iff_witness : getWords (lit "  ") = [].
Proof. exact (proj2 (getWords_nil_iff (lit "  ")) eq_refl). Defined.

(** ** Generator and synthesizer *)

(** X4.  Every value drawn from a seeded generator, however many are drawn,
    lies in [0, 1). *)
Theorem seeded_draws_in_unit_interval (seed : R) (n : nat) :
  Forall (fun r => 0 <= r < 1)
         (fst (forEach (fun _ : unit => random) (repeat tt n) (createSeeder seed))).
Proof.
  apply forEach_Forall. intros _ value. apply random_range.
Qed.

Lemma clamp_mono (x y lo hi : R) :
  x <= y -> clamp x lo hi <= clamp y lo hi.
Proof.
  intros H. unfold clamp. now apply Rle_min_compat_r, Rle_max_compat_r.
Qed.

(** X5.  The per-word duration stays within [0.28, 0.6] seconds, and a more
    energetic or more gesturing emotion never speaks slower. *)
Theorem estimateWordDuration_faster (a b : EmotionPreset) :
  mouthEnergy a <= mouthEnergy b -> handAmplitude a <= handAmplitude b ->
  0.28 <= estimateWordDuration b
  /\ estimateWordDuration b <= estimateWordDuration a
  /\ estimateWordDuration a <= 0.6.
Proof.
  intros He Hh.
  pose proof (estimateWordDuration_range a).
  pose proof (estimateWordDuration_range b).
  repeat split; try lra.
  unfold estimateWordDuration. apply clamp_mono. lra.
Qed.

Lemma estimateWordDuration_faster_witness :
  0.28 <= estimateWordDuration keen
  /\ estimateWordDuration keen <= estimateWordDuration calm
  /\ estimateWordDuration calm <= 0.6.
Proof.
  apply (estimateWordDuration_faster calm keen); cbn; lra.
Defined.

Lemma Forall2_seq_nth {B : Type} (P : nat -> B -> Prop) (l : list B) :
  forall (start n : nat),
    Forall2 P (seq start n) l ->
    forall i f, nth_error l i = Some f -> (i < n)%nat /\ P (start + i)%nat f.
Proof.
  induction l as [|b l IH]; intros start n H i f Hi.
  - destruct i; discriminate.
  - destruct n as [|n]; [inversion H|]. cbn [seq] in H.
    inversion H as [|? ? ? ? Hb Hl]; subst.
    destruct i as [|i]; cbn [nth_error] in Hi.
    + injection Hi as <-. rewrite Nat.add_0_r. split; [lia | assumption].
    + destruct (IH (S start) n Hl i f Hi) as [Hlt Hp].
      split; [lia|]. now replace (start + S i)%nat with (S start + i)%nat by lia.
Qed.

(** X6.  In a synthesized timeline the frame at index [i] is stamped
    [i / 60] seconds, which lies before the duration, and its mouth and
    width are in [0.05, 1] and [0.05, 0.95]. *)
Theorem timeline_frames_stamped (text : JsString) (emotion : EmotionPreset)
    (seed : R) (i : nat) (f : VisemeFrame) :
  let timeline := buildVisemeTimeline text emotion seed in
  nth_error (frames timeline) i = Some f ->
  time f = INR i / 60
  /\ 0 <= time f < duration timeline
  /\ 0.05 <= mouth f <= 1
  /\ 0.05 <= width f <= 0.95.
Proof.
  intros timeline Hi.
  pose proof (timeline_frames text emotion seed) as HF. cbn zeta in HF.
  fold timeline in HF. unfold indicesBelow in HF.
  destruct (Forall2_seq_nth _ _ _ _ HF i f Hi) as [Hlt [Ht [Hm Hw]]].
  cbn [Nat.add] in Ht.
  split; [exact Ht|]. split; [|split; assumption].
  rewrite Ht. pose proof (pos_INR i).
  pose proof (Zfloor_bound (duration timeline * 60)) as [Hlo _].
  assert (Hz : (Z.of_nat (S i) <= Zfloor (duration timeline * 60))%Z) by lia.
  apply IZR_le in Hz. rewrite <- INR_IZR_INZ, S_INR in Hz. lra.
Qed.

Lemma timeline_frames_stamped_witness :
  exists f,
    nth_error (frames (buildVisemeTimeline [] calm 0.25)) 3 = Some f
    /\ time f = INR 3 / 60.
Proof.
  destruct (timeline_has_frame [] calm 0.25 3) as [f Hf]; [lia|].
  exists f. split; [exact Hf|].
  exact (proj1 (timeline_frames_stamped [] calm 0.25 3 f Hf)).
Defined.

(** X7.  A script of [n] words lasts at most [max(0.6 n + 1.2, 2)] seconds;
    a single word always lasts exactly 2 seconds, in 120 frames. *)
Theorem timeline_duration_bounds (text : JsString) (emotion : EmotionPreset)
    (seed : R) (w : JsString) (ws : list JsString) :
  getWords text = w :: ws ->
  let timeline := buildVisemeTimeline text emotion seed in
  let n := INR (List.length (w :: ws)) in
  Rmax (0.28 * n + 1.2) 2 <= duration timeline
  /\ duration timeline <= Rmax (0.6 * n + 1.2) 2
  /\ (ws = [] ->
      duration timeline = 2 /\ List.length (frames timeline) = 120%nat).
Proof.
  intros Hw timeline n.
  destruct (timeline_words w ws emotion seed text Hw) as [Hd Hl].
  fold timeline in Hd, Hl. fold n in Hd.
  pose proof (estimateWordDuration_range emotion) as Hr.
  assert (Hn : 1 <= n).
  { unfold n. cbn [List.length]. rewrite S_INR.
    pose proof (pos_INR (List.length ws)). lra. }
  split; [|split].
  - rewrite Hd. unfold Rmax.
    repeat match goal with
           | |- context [Rle_dec ?a ?b] => destruct (Rle_dec a b)
           end; nra.
  - rewrite Hd. unfold Rmax.
    repeat match goal with
           | |- context [Rle_dec ?a ?b] => destruct (Rle_dec a b)
           end; nra.
  - intros ->. assert (Hn1 : n = 1) by (unfold n; cbn; lra).
    assert (H2 : duration timeline = 2).
    { rewrite Hd, Hn1. unfold Rmax. destruct (Rle_dec _ _); lra. }
    split; [exact H2|]. rewrite Hl, H2.
    rewrite (Zfloor_eq 120); [reflexivity | lra].
Qed.

Lemma timeline_duration_bounds_witness :
  let timeline := buildVisemeTimeline (lit " Hello ") keen 0.25 in
  duration timeline = 2 /\ List.length (frames timeline) = 120%nat.
Proof.
  exact (proj2 (proj2 (timeline_duration_bounds (lit " Hello ") keen 0.25
                         (lit "Hello") [] eq_refl)) eq_refl).
Defined.

(** ** Sampler and drivers *)

Lemma increasing_nth (l : list VisemeFrame) :
  timeIncreasing l ->
  forall i j a b, (i < j)%nat -> nth_error l i = Some a ->
                  nth_error l j = Some b -> time a < time b.
Proof.
  induction 1 as [|x l Hl IH Hx]; intros i j a b Hij Ha Hb.
  - destruct i; discriminate.
  - destruct j as [|j]; [lia|]. cbn [nth_error] in Hb.
    destruct i as [|i]; cbn [nth_error] in Ha.
    + injection Ha as <-. rewrite Forall_forall in Hx.
      apply Hx. now apply nth_error_In in Hb.
    + apply (IH i j); [lia | assumption | assumption].
Qed.

Lemma findIndexFrom_at (l : list VisemeFrame) :
  timeIncreasing l ->
  forall i f k, nth_error l i = Some f ->
    findIndexFrom (fun frame => geb (time frame) (time f)) k l
    = (k + Z.of_nat i)%Z.
Proof.
  induction 1 as [|x l Hl IH Hx]; intros i f k Hi.
  - destruct i; discriminate.
  - destruct i as [|i]; cbn [nth_error] in Hi; cbn [findIndexFrom].
    + injection Hi as <-. rewrite geb_true by lra. lia.
    + rewrite Forall_forall in Hx.
      rewrite geb_false by (apply Hx; now apply nth_error_In in Hi).
      rewrite (IH i f (k + 1)%Z Hi). lia.
Qed.

Lemma sampleViseme_increasing (timeline : list VisemeFrame) (i : nat)
    (f : VisemeFrame) :
  timeIncreasing timeline -> nth_error timeline i = Some f ->
  sampleViseme timeline (time f) = visemeOf f.
Proof.
  intros Hinc Hi. unfold sampleViseme.
  assert (Hlen : (i < List.length timeline)%nat)
    by (apply nth_error_Some; congruence).
  destruct (lastFrame timeline) as [final|] eqn:Hlast.
  2:{ unfold lastFrame in Hlast. apply nth_error_None in Hlast. lia. }
  unfold lastFrame in Hlast.
  destruct (Rle_dec (time final) (time f)) as [Hge | Hlt].
  - rewrite (geb_true _ _ Hge).
    destruct (Nat.eq_dec i (List.length timeline - 1)) as [-> | Hne];
      [congruence|].
    assert (time f < time final)
      by (apply (increasing_nth timeline Hinc i (List.length timeline - 1));
          [lia | assumption | assumption]).
    lra.
  - rewrite geb_false by lra.
    unfold findIndex. rewrite (findIndexFrom_at timeline Hinc i f 0 Hi).
    destruct i as [|i].
    + cbn. destruct timeline; [discriminate|]. cbn in Hi. now injection Hi as ->.
    + replace (0 + Z.of_nat (S i) <=? 0)%Z with false
        by (symmetry; apply Z.leb_gt; lia).
      replace (Z.to_nat (0 + Z.of_nat (S i) - 1)) with i by lia.
      replace (Z.to_nat (0 + Z.of_nat (S i))) with (S i) by lia.
      destruct (nth_error timeline i) as [p|] eqn:Hp.
      2:{ apply nth_error_None in Hp. lia. }
      rewrite (nth_error_nth timeline i final Hp).
      rewrite (nth_error_nth timeline (S i) final Hi).
      assert (Hpf : time p < time f)
        by (apply (increasing_nth timeline Hinc i (S i)); [lia | assumption | assumption]).
      assert (Hs : orOne (time f - time p) = time f - time p).
      { unfold orOne, truthy. destruct (Req_dec_T _ 0); [lra | reflexivity]. }
      rewrite Hs.
      replace ((time f - time p) / (time f - time p)) with 1 by (field; lra).
      rewrite clamp_id by lra.
      unfold visemeOf. f_equal; ring.
Qed.

(** X8.  On a timeline with strictly increasing times, sampling at the time
    of a frame returns exactly that frame's mouth and width. *)
Theorem sampleViseme_at_frame (timeline : list VisemeFrame) (i : nat)
    (f : VisemeFrame) :
  timeIncreasing timeline -> nth_error timeline i = Some f ->
  sampleViseme timeline (time f) = visemeOf f.
Proof. apply sampleViseme_increasing. Qed.

Lemma sampleViseme_at_frame_witness :
  sampleViseme
    [{| time := 0; mouth := 0.2; width := 0.3 |};
     {| time := 1; mouth := 0.6; width := 0.5 |};
     {| time := 2; mouth := 0.4; width := 0.7 |}] 1
  = {| visemeMouth := 0.6; visemeWidth := 0.5 |}.
Proof.
  apply (sampleViseme_at_frame _ 1 {| time := 1; mouth := 0.6; width := 0.5 |}).
  - unfold timeIncreasing. repeat constructor; cbn; lra.
  - reflexivity.
Defined.

(** X9.  Sampling never leaves the range of the frames: on a timeline whose
    frames have mouth in [0.05, 1] and width in [0.05, 0.95] (the empty one
    included) every sample does, at every elapsed time. *)
Theorem sampleViseme_stays_in_range (timeline : list VisemeFrame)
    (elapsed : R) :
  Forall frameInRange timeline ->
  0.05 <= visemeMouth (sampleViseme timeline elapsed) <= 1
  /\ 0.05 <= visemeWidth (sampleViseme timeline elapsed) <= 0.95.
Proof. intros H. exact (sampleViseme_in_range timeline elapsed H). Qed.

Lemma sampleViseme_stays_in_range_witness :
  0.05 <= visemeMouth
            (sampleViseme [{| time := 0; mouth := 0.2; width := 0.3 |};
                           {| time := 1; mouth := 0.6; width := 0.5 |}] 0.5) <= 1
  /\ 0.05 <= visemeWidth
               (sampleViseme [{| time := 0; mouth := 0.2; width := 0.3 |};
                              {| time := 1; mouth := 0.6; width := 0.5 |}] 0.5)
     <= 0.95.
Proof.
  apply sampleViseme_stays_in_range.
  repeat constructor; cbn; lra.
Defined.

Lemma energy_repeat (b : Z) (n : nat) (acc : R) :
  fold_left
    (fun sum b => let value := (IZR b - 128) / 128 in sum + value * value)
    (repeat b n) acc
  = acc + INR n * ((IZR b - 128) / 128 * ((IZR b - 128) / 128)).
Proof.
  revert acc. induction n as [|n IH]; intros acc.
  - cbn. lra.
  - cbn [repeat fold_left]. rewrite IH, S_INR. cbn zeta. ring.
Qed.

(** X10.  The audio driver at its extremes, for a buffer that is not empty
    and an emotion in range: silence (all bytes 128) gives the mouth
    [clamp(mouthEnergy * 0.35, 0.05, 1)] and the width 0.25; full-scale
    clipping (all bytes 0) gives the mouth 1 and the width 0.9. *)
Theorem audioViseme_extremes (emotion : EmotionPreset) (n : nat) :
  (0 < n)%nat -> emotionInRange emotion ->
  audioViseme emotion (repeat 128%Z n)
  = {| visemeMouth := clamp (mouthEnergy emotion * 0.35) 0.05 1;
       visemeWidth := 0.25 |}
  /\ audioViseme emotion (repeat 0%Z n)
     = {| visemeMouth := 1; visemeWidth := 0.9 |}.
Proof.
  intros Hn (He & _). unfold audioViseme.
  rewrite !energy_repeat, !repeat_length.
  assert (Hpos : 0 < INR n) by (apply lt_0_INR; lia).
  split.
  - replace ((0 + INR n * ((128 - 128) / 128 * ((128 - 128) / 128))) / INR n)
      with 0 by (field; lra).
    rewrite sqrt_0. f_equal.
    + f_equal. lra.
    + rewrite clamp_id; lra.
  - replace ((0 + INR n * ((0 - 128) / 128 * ((0 - 128) / 128))) / INR n)
      with 1 by (field; lra).
    rewrite sqrt_1. f_equal; unfold clamp, Rmin, Rmax;
      repeat match goal with
             | |- context [Rle_dec ?a ?b] => destruct (Rle_dec a b)
             end; lra.
Qed.

Lemma audioViseme_extremes_witness :
  audioViseme calm silence
  = {| visemeMouth := clamp (0.5 * 0.35) 0.05 1; visemeWidth := 0.25 |}.
Proof.
  apply (audioViseme_extremes calm 1024).
  - lia.
  - unfold emotionInRange. cbn. lra.
Defined.

Lemma stamped_increasing (l : list VisemeFrame) :
  forall start n,
    Forall2 (fun i f => time f = INR i / 60) (seq start n) l ->
    timeIncreasing l
    /\ Forall (fun f => exists j, (start <= j)%nat /\ time f = INR j / 60) l.
Proof.
  unfold timeIncreasing.
  induction l as [|a l IH]; intros start n H.
  - split; constructor.
  - destruct n as [|n]; [inversion H|]. cbn [seq] in H.
    inversion H as [|? ? ? ? Ha Hl]; subst.
    destruct (IH (S start) n Hl) as [Hs Hall].
    split.
    + constructor; [exact Hs|].
      eapply Forall_impl; [|exact Hall]. cbn beta.
      intros b (j & Hj & Hb). rewrite Ha, Hb.
      assert (INR start < INR j) by (apply lt_INR; lia). lra.
    + constructor; [exists start; split; [lia | exact Ha]|].
      eapply Forall_impl; [|exact Hall]. cbn beta.
      intros b (j & Hj & Hb). exists j. split; [lia | exact Hb].
Qed.

(** X11.  A synthesized timeline is sampled exactly at its frames: at
    [i / 60] seconds the sampler returns the mouth and width of frame [i]. *)
Theorem sampleViseme_on_grid (text : JsString) (emotion : EmotionPreset)
    (seed : R) (i : nat) (f : VisemeFrame) :
  let timeline := buildVisemeTimeline text emotion seed in
  nth_error (frames timeline) i = Some f ->
  sampleViseme (frames timeline) (INR i / 60) = visemeOf f.
Proof.
  intros timeline Hi.
  pose proof (timeline_frames text emotion seed) as HF. cbn zeta in HF.
  fold timeline in HF. unfold indicesBelow in HF.
  assert (HT : Forall2 (fun i f => time f = INR i / 60)
                 (seq 0 (Z.to_nat (Zfloor (duration timeline * 60))))
                 (frames timeline)).
  { eapply Forall2_impl; [|exact HF]. cbn beta. intros a b [H _]. exact H. }
  destruct (stamped_increasing _ _ _ HT) as [Hinc _].
  destruct (Forall2_seq_nth _ _ _ _ HT i f Hi) as [_ Ht].
  cbn [Nat.add] in Ht. rewrite <- Ht.
  now apply (sampleViseme_increasing (frames timeline) i f).
Qed.

Lemma sampleViseme_on_grid_witness :
  exists f,
    nth_error (frames (buildVisemeTimeline (lit "Hey there") calm 0.25)) 7
    = Some f
    /\ sampleViseme (frames (buildVisemeTimeline (lit "Hey there") calm 0.25))
         (INR 7 / 60)
       = visemeOf f.
Proof.
  destruct (timeline_has_frame (lit "Hey there") calm 0.25 7) as [f Hf]; [lia|].
  exists f. split; [exact Hf|].
  exact (sampleViseme_on_grid (lit "Hey there") calm 0.25 7 f Hf).
Defined.

(** ** Controller *)

(** X12.  Stopping twice is the same as stopping once: [shutdownPlayback]
    and [stopPreview] are idempotent. *)
Theorem shutdown_idempotent (st : Engine) :
  shutdownPlayback (shutdownPlayback st) = shutdownPlayback st
  /\ stopPreview (stopPreview st) = stopPreview st.
Proof.
  take_apart st.
  split; destruct raf as [[|n]|], tts, utter, audio, resolver;
    unfold_engine; reflexivity.
Qed.

Lemma memId_remove (id : nat) (l : list nat) :
  memId id (remove Nat.eq_dec id l) = false.
Proof.
  unfold memId. apply not_true_is_false. intros H.
  apply existsb_exists in H as (x & Hin & Hx).
  apply Nat.eqb_eq in Hx. subst x. now apply remove_In in Hin.
Qed.

(** X13.  A cancelled clock never publishes: once [cleanupRAF] has cancelled
    the registered frame, the browser running that frame's id changes
    nothing. *)
Theorem cancelled_frame_is_dead (props : UseLipSyncEngineProps) (st : Engine)
    (id : nat) (timestamp : R) (samples : list Z) :
  rafRef st = Some id -> id <> 0%nat ->
  rafRef (cleanupRAF st) = None
  /\ handle props (Frame id timestamp samples) (cleanupRAF st) = cleanupRAF st.
Proof.
  intros Hr Hid. destruct id as [|n]; [congruence|].
  assert (Hp : pendingFrames (cleanupRAF st)
               = remove Nat.eq_dec (S n) (pendingFrames st)).
  { unfold cleanupRAF. rewrite Hr. destruct st; reflexivity. }
  split.
  - unfold cleanupRAF. rewrite Hr. destruct st; reflexivity.
  - cbn [handle]. now rewrite Hp, memId_remove.
Qed.

Lemma cancelled_frame_is_dead_witness :
  let props := heyProps calm in
  let st := snd (startPreviewEnter browser props textOptions 0 (mounted props true)) in
  handle props (Frame 1 16 []) (cleanupRAF st) = cleanupRAF st.
Proof.
  intros props st.
  refine (proj2 (cancelled_frame_is_dead props st 1 16 [] eq_refl _)).
  discriminate.
Defined.

(** X14.  The single-clock invariant (at most one frame pending, and it is
    the registered one) is kept by every browser or user event and by a call
    of [startPreview] up to its return or first [await]; a call that
    suspends leaves no frame pending. *)
Theorem single_clock_kept (pf : Platform) (props : UseLipSyncEngineProps)
    (st : Engine) :
  oneClock st ->
  (forall ev, oneClock (handle props ev st))
  /\ (forall options now,
        let r := startPreviewEnter pf props options now st in
        oneClock (snd r) /\ (fst r <> Returned -> pendingFrames (snd r) = [])).
Proof.
  intros H. split.
  - intros ev. now apply handle_one.
  - intros options now. cbn zeta.
    destruct (startPreviewEnter_one pf props options now st H) as [H1 H2].
    split; [exact H1|]. intros Hne. now destruct (H2 Hne) as (_ & _ & Hp).
Qed.

Lemma single_clock_kept_witness :
  let props := heyProps calm in
  oneClock (handle props UtteranceEnd
              (snd (startPreviewEnter browser props textOptions 0
                      (mounted props true)))).
Proof.
  intros props.
  assert (H0 : oneClock (mounted props true)).
  { unfold oneClock. cbn. repeat split; [lia | discriminate]. }
  destruct (single_clock_kept browser props (mounted props true) H0)
    as [_ Hcall].
  destruct (Hcall textOptions 0) as [H1 _].
  exact (proj1 (single_clock_kept browser props _ H1) UtteranceEnd).
Defined.

(** X15.  However text-mode calls of [startPreview] and events are
    interleaved, no call is ever left suspended and the single-clock
    invariant holds throughout: two clocks cannot arise in text mode. *)
Theorem text_mode_never_two_clocks (pf : Platform)
    (props : UseLipSyncEngineProps) (l : list Action) (w : World) :
  Forall textOnly l -> suspended w = [] -> oneClock (engine w) ->
  suspended (actAll pf props l w) = []
  /\ oneClock (engine (actAll pf props l w)).
Proof.
  intros Hl. revert w. unfold actAll.
  induction Hl as [|a l Ha _ IH]; intros w Hs Hc; cbn [fold_left];
    [now split|].
  destruct (act_text_one pf props a w Ha Hs Hc) as [Hs' Hc'].
  now apply IH.
Qed.

Lemma text_mode_never_two_clocks_witness :
  let props := heyProps calm in
  let w := actAll browser props
             [Call textOptions 0; Call textOptions 1; Occur (Frame 1 16 []);
              Call {| forceRestart := true; sourceMode := Some TextMode;
                      fromExport := false |} 40]
             (freshWorld props) in
  suspended w = [] /\ oneClock (engine w).
Proof.
  intros props.
  apply text_mode_never_two_clocks.
  - repeat constructor.
  - reflexivity.
  - unfold oneClock. cbn. repeat split; [lia | discriminate].
Defined.

(** ** Sessions *)

Lemma gtb_true (a b : R) : b < a -> gtb a b = true.
Proof. intros H. unfold gtb. destruct (Rlt_dec b a); [reflexivity | contradiction]. Qed.

Lemma truthy_true (a : R) : a <> 0 -> truthy a = true.
Proof. intros H. unfold truthy. destruct (Req_dec_T a 0); [contradiction | reflexivity]. Qed.

(** X16.  A session driven by the timeline (text mode, or audio mode
    without an analyser) ends by itself: with a non-zero duration stored, the
    first tick later than 0.4 s after the duration shuts the playback down
    and leaves the pose as it was.  Any other tick publishes the
    compositor's pose for the sampled timeline, advances the generator and
    re-arms exactly one frame.  In audio mode with an analyser attached every
    tick does so for the audio driver's signal: a tick never ends an audio
    session. *)
Theorem tick_ends_text_session (props : UseLipSyncEngineProps)
    (timestamp : R) (samples : list Z) (st : Engine) :
  let elapsed := (timestamp - startTimeRef st) / 1000 in
  let st' := updateLoop props timestamp samples st in
  let sampled :=
    composePose props timestamp
      (sampleViseme (visemeTimelineRef st) elapsed) (randomRef st) in
  let heard :=
    composePose props timestamp (audioViseme (emotion props) samples)
      (randomRef st) in
  (modeRef st = TextMode \/ analyserRef st && audioDataRef st = false ->
   visemeDurationRef st <> 0 -> visemeDurationRef st + 0.4 < elapsed ->
   st' = shutdownPlayback st /\ isSpeaking st' = false
   /\ lipState st' = lipState st)
  /\ (modeRef st = TextMode \/ analyserRef st && audioDataRef st = false ->
      visemeDurationRef st = 0 \/ elapsed <= visemeDurationRef st + 0.4 ->
      (lipState st' = fst sampled /\ randomRef st' = snd sampled)
      /\ pendingFrames st' = pendingFrames st ++ [nextFrameId st]
      /\ rafRef st' = Some (nextFrameId st)
      /\ isSpeaking st' = isSpeaking st)
  /\ (modeRef st = AudioMode -> analyserRef st = true ->
      audioDataRef st = true ->
      (lipState st' = fst heard /\ randomRef st' = snd heard)
      /\ pendingFrames st' = pendingFrames st ++ [nextFrameId st]
      /\ rafRef st' = Some (nextFrameId st)
      /\ isSpeaking st' = isSpeaking st).
Proof.
  cbn zeta. split; [|split].
  - intros Hm Hd Hlate.
    assert (Hn : driverSignal props timestamp samples st = None).
    { unfold driverSignal.
      rewrite (truthy_true _ Hd), (gtb_true _ _ Hlate). cbn [andb].
      destruct Hm as [-> | ->]; [reflexivity | now destruct (modeRef st)]. }
    unfold updateLoop. rewrite Hn. split; [reflexivity|].
    split; [apply shutdownPlayback_stops|].
    take_apart st.
    destruct raf as [[|n]|], tts, utter, audio, resolver;
      unfold_engine; reflexivity.
  - intros Hm Hrun.
    assert (Hs : driverSignal props timestamp samples st
                 = Some (sampleViseme (visemeTimelineRef st)
                           ((timestamp - startTimeRef st) / 1000))).
    { unfold driverSignal.
      assert (Hg : truthy (visemeDurationRef st)
                   && gtb ((timestamp - startTimeRef st) / 1000)
                        (visemeDurationRef st + 0.4) = false).
      { destruct Hrun as [H0 | Hle].
        - unfold truthy. destruct (Req_dec_T _ 0); [reflexivity | contradiction].
        - rewrite (gtb_false _ _ Hle). apply andb_false_r. }
      rewrite Hg.
      destruct Hm as [-> | ->]; [reflexivity | now destruct (modeRef st)]. }
    rewrite (updateLoop_running _ _ _ _ _ Hs).
    destruct st; repeat split; reflexivity.
  - intros Hm Ha Hd.
    assert (Hs : driverSignal props timestamp samples st
                 = Some (audioViseme (emotion props) samples)).
    { unfold driverSignal. now rewrite Hm, Ha, Hd. }
    rewrite (updateLoop_running _ _ _ _ _ Hs).
    destruct st; repeat split; reflexivity.
Qed.

Lemma tick_ends_text_session_witness :
  let props := heyProps calm in
  let st := snd (startPreviewEnter browser props textOptions 0 (mounted props true)) in
  isSpeaking (updateLoop props 9000 [] st) = false.
Proof.
  intros props st.
  destruct (tick_ends_text_session props 9000 [] st) as [H _].
  cbn zeta in H.
  refine (proj1 (proj2 (H (or_introl eq_refl) _ _))).
  - change (visemeDurationRef st)
      with (duration (buildVisemeTimeline (spokenText props) (emotion props)
                        (seed props))).
    pose proof (timeline_duration_min (spokenText props) (emotion props)
                  (seed props)). lra.
  - change (visemeDurationRef st)
      with (duration (buildVisemeTimeline (spokenText props) (emotion props)
                        (seed props))).
    change (startTimeRef st) with 0.
    pose proof (hey_duration props eq_refl). lra.
Defined.

Lemma entered_fields (options : StartPreviewOptions) (m : VoiceMode)
    (now : R) (st : Engine) :
  let X := entered options m now st in
  (startTimeRef X = now /\ modeRef X = m /\ nextFrameId X = nextFrameId st)
  /\ (ttsSupported X = ttsSupported st /\ isSpeaking X = isSpeaking st
      /\ hasAudioLoaded X = hasAudioLoaded st /\ audioRef X = audioRef st)
  /\ (visemeTimelineRef X = visemeTimelineRef st
      /\ audioContextRef X = audioContextRef st
      /\ analyserRef X = analyserRef st).
Proof.
  unfold entered. cbn zeta. take_apart st.
  destruct (fromExport options), raf as [[|n]|]; unfold_engine;
    repeat split; reflexivity.
Qed.

(** X17.  A text-mode start that is forced, or finds nothing playing,
    supersedes whatever ran before: from a single-clock state with speech
    synthesis available it leaves exactly one frame pending, the freshly
    requested one, registered in [rafRef]; the session is playing from the
    new start timestamp and only the new utterance is queued. *)
Theorem text_start_supersedes (pf : Platform) (props : UseLipSyncEngineProps)
    (options : StartPreviewOptions) (now : R) (st : Engine) :
  oneClock st -> ttsSupported st = true ->
  requestedMode options st = TextMode ->
  forceRestart options || negb (isSpeaking st) = true ->
  let r := startPreviewEnter pf props options now st in
  fst r = Returned
  /\ (pendingFrames (snd r) = [nextFrameId st]
      /\ rafRef (snd r) = Some (nextFrameId st)
      /\ nextFrameId (snd r) = S (nextFrameId st))
  /\ (isSpeaking (snd r) = true /\ startTimeRef (snd r) = now
      /\ modeRef (snd r) = TextMode)
  /\ speechQueue (snd r) = [makeUtterance props (spokenText props)].
Proof.
  intros H1 Htts Hm Hgo. cbn zeta.
  pose proof (startPreviewEnter_cases pf props options now st) as Hc.
  cbn zeta in Hc. rewrite Hm in Hc.
  destruct Hc as [(Hs & Hf & _) | [(_ & Hr) | (Hbad & _)]].
  - rewrite Hs, Hf in Hgo. discriminate Hgo.
  - rewrite Hr. cbn [fst snd].
    pose proof (entered_idle options TextMode now st H1) as (_ & _ & Hp).
    destruct (entered_fields options TextMode now st)
      as ((Ht & Hmode & Hn) & (Htts' & _) & _).
    set (X := entered options TextMode now st) in *. clearbody X.
    rewrite Htts in Htts'. rewrite <- Hn. clear - Hp Ht Hmode Htts'.
    unfold startPreviewText. rewrite Htts'. cbn [negb].
    take_apart X. cbn in Hp, Ht, Hmode, Htts'. subst.
    destruct utter; unfold_engine; repeat split; reflexivity.
  - discriminate Hbad.
Qed.

Lemma text_start_supersedes_witness :
  let props := heyProps calm in
  let st := snd (startPreviewEnter browser props textOptions 0 (mounted props true)) in
  let r := startPreviewEnter browser props
             {| forceRestart := true; sourceMode := None; fromExport := false |}
             50 st in
  pendingFrames (snd r) = [nextFrameId st]
  /\ rafRef (snd r) = Some (nextFrameId st)
  /\ startTimeRef (snd r) = 50.
Proof.
  intros props st.
  assert (H0 : oneClock (mounted props true)).
  { unfold oneClock, mounted. cbn [nextFrameId rafRef pendingFrames].
    split; [lia|]. split; [discriminate | exact I]. }
  pose proof (proj1 (startPreviewEnter_one browser props textOptions 0
                       (mounted props true) H0)) as H1.
  destruct (text_start_supersedes browser props
              {| forceRestart := true; sourceMode := None; fromExport := false |}
              50 st H1 eq_refl eq_refl eq_refl)
    as (_ & (Hp & Hr & _) & (_ & Ht & _) & _).
  exact (conj Hp (conj Hr Ht)).
Defined.

(** X18.  The utterance's voice parameters always lie in their bands, pitch
    in [0.6, 1.6], rate in [0.7, 1.5] and volume in [0.4, 1]; for an emotion
    with fields in [0, 1] the pitch and rate clamps are idle:
    pitch = 1 + browLift / 2 and rate = 1 + (mouthEnergy - 0.5) * 0.4. *)
Theorem utterance_voice_bands (props : UseLipSyncEngineProps)
    (text : JsString) :
  let u := makeUtterance props text in
  (0.6 <= pitch u <= 1.6 /\ 0.7 <= rate u <= 1.5 /\ 0.4 <= volume u <= 1)
  /\ (emotionInRange (emotion props) ->
      pitch u = 1 + browLift (emotion props) * 0.5
      /\ rate u = 1 + (mouthEnergy (emotion props) - 0.5) * 0.4
      /\ 0.8 <= volume u).
Proof.
  cbn zeta. unfold makeUtterance. cbn [pitch rate volume]. split.
  - repeat split; apply clamp_bounds; lra.
  - intros (He & Hh & _ & Hb). split; [|split].
    + apply clamp_id. lra.
    + apply clamp_id. lra.
    + unfold clamp, Rmin, Rmax.
      repeat match goal with
             | |- context [Rle_dec ?a ?b] => destruct (Rle_dec a b)
             end; lra.
Qed.

Lemma utterance_voice_bands_witness :
  pitch (makeUtterance (heyProps keen) (lit "Hey there")) = 1 + 1 * 0.5.
Proof.
  refine (proj1 (proj2 (utterance_voice_bands (heyProps keen) (lit "Hey there")) _)).
  unfold emotionInRange. cbn. lra.
Defined.

(** X19.  [exportVideo] resolves to null exactly when there is no window or
    no stage canvas is registered, and then it leaves the engine untouched;
    with both present it never resolves to null. *)
Theorem exportVideo_null_iff (pf : Platform) (props : UseLipSyncEngineProps)
    (now : R) (pauses : Pauses) (window : list Step) (recorded : list nat)
    (w : World) :
  let r := exportVideo pf props now pauses window recorded w in
  (fst r = Fulfilled None
   <-> hasWindow pf = false \/ stageCanvasRef (engine w) = false)
  /\ (fst r = Fulfilled None -> snd r = w).
Proof.
  cbn zeta. unfold exportVideo.
  destruct (hasWindow pf); cbn [negb].
  2:{ split; [split; auto | reflexivity]. }
  destruct (stageCanvasRef (engine w)); cbn [negb].
  2:{ split; [split; auto | reflexivity]. }
  destruct (recorderSupported pf); cbn [negb].
  2:{ split; [split; [discriminate | intros [H | H]; discriminate H]
             | discriminate]. }
  destruct (awaitStartPreview pf props exportOptions now pauses Mine _)
    as [[[]| |] rw].
  - destruct (stepAll pf props window rw) as [r3 w3].
    destruct (match r3 with
              | Mine => exportSettled (engine (withEngine
                                         (shutdownPlayback (engine w3)) w3))
              | Overwritten settled => settled
              end); cbn [fst snd];
      (split; [split; [discriminate | intros [H | H]; discriminate H]
              | discriminate]).
  - split; [split; [discriminate | intros [H | H]; discriminate H]
           | discriminate].
  - split; [split; [discriminate | intros [H | H]; discriminate H]
           | discriminate].
Qed.

(** X20.  An audio-mode [startPreview] that is not stopped by the
    already-playing guard is refused exactly when the call sees no audio
    loaded, there is no window, or there is no audio element.  Otherwise it
    attaches the analyser and suspends; once it waits for [audio.play()] the
    element plays from position 0, and nothing is marked as playing and no
    frame is requested before that promise fulfils.  ([loadAudioFile] sets
    the flag the call reads; the call sees it once the hook has rendered
    again.) *)
Theorem audio_start_accepted (pf : Platform) (props : UseLipSyncEngineProps)
    (options : StartPreviewOptions) (now : R) (st : Engine) :
  sourceMode options = Some AudioMode ->
  forceRestart options || negb (isSpeaking st) = true ->
  let r := startPreviewEnter pf props options now st in
  (fst r = Returned
   <-> hasAudioLoaded st = false \/ hasWindow pf = false \/ audioRef st = None)
  /\ (fst r <> Returned ->
      (fst r = AwaitPlay \/ fst r = AwaitResume)
      /\ analyserRef (snd r) = true
      /\ (fst r = AwaitPlay ->
          exists a, audioRef (snd r) = Some a /\ paused a = false
                    /\ currentTime a = 0)
      /\ isSpeaking (snd r) = isSpeaking st
      /\ nextFrameId (snd r) = nextFrameId st)
  /\ (hasWindow pf = true -> audioRef st <> None ->
      hasAudioLoaded (loadAudioFile pf st) = true).
Proof.
  intros Hm Hgo. cbn zeta.
  destruct pf as [hw cs rs pl tr].
  destruct options as [force src fromExp]. cbn in Hm, Hgo. subst src.
  take_apart st. cbn in Hgo.
  unfold startPreviewEnter, loadAudioFile.
  cbn [forceRestart sourceMode fromExport].
  split; [|split].
  - destruct force, speaking; try discriminate Hgo;
      destruct fromExp, raf as [[|n]|], hw, audio as [a|], loaded,
               ctx as [[|]|], cs, analyser;
      unfold_engine;
      (split; [intros E; try discriminate E; auto
              | intros [E | [E | E]]; try discriminate E; reflexivity]).
  - destruct force, speaking; try discriminate Hgo;
      destruct fromExp, raf as [[|n]|], hw, audio as [a|], loaded,
               ctx as [[|]|], cs, analyser;
      unfold_engine; intros Hne; try congruence;
      (split; [auto|]); (split; [reflexivity|]);
      (split; [intros E; try discriminate E; eexists; repeat split; reflexivity|]);
      split; reflexivity.
  - intros Hw Ha. cbn in Hw, Ha. subst hw.
    destruct audio; [reflexivity | congruence].
Qed.

Lemma audio_start_accepted_witness :
  let props := heyProps calm in
  let st := loadAudioFile browser (mounted props true) in
  fst (startPreviewEnter browser props audioOptions 0 st) <> Returned.
Proof.
  intros props st H.
  destruct (proj1 (proj1 (audio_start_accepted browser props audioOptions 0 st
                            eq_refl eq_refl)) H) as [E | [E | E]];
    discriminate E.
Defined.

(** X21.  [stopPreview] leaves a neutral pose and nothing playing: the mouth
    is at 0.12 / 0.2, the hands and the body sway at 0, and each of the
    other seven channels (blink, eyebrow, head yaw, pitch and roll, gaze x
    and y) as it was; the playing flag is off, the audio element is paused at
    position 0, and from a single-clock state no frame is pending. *)
Theorem stopPreview_neutral (st : Engine) :
  let st' := stopPreview st in
  (mouthOpen (lipState st') = 0.12 /\ mouthWidth (lipState st') = 0.2
   /\ handLeft (lipState st') = 0 /\ handRight (lipState st') = 0
   /\ bodySway (lipState st') = 0)
  /\ (blink (lipState st') = blink (lipState st)
      /\ eyebrowLift (lipState st') = eyebrowLift (lipState st)
      /\ headYaw (lipState st') = headYaw (lipState st)
      /\ headPitch (lipState st') = headPitch (lipState st)
      /\ headRoll (lipState st') = headRoll (lipState st)
      /\ gazeX (lipState st') = gazeX (lipState st)
      /\ gazeY (lipState st') = gazeY (lipState st))
  /\ isSpeaking st' = false
  /\ match audioRef st' with
     | Some a => paused a = true /\ currentTime a = 0
     | None => audioRef st = None
     end
  /\ (oneClock st -> pendingFrames st' = [] /\ rafRef st' = None).
Proof.
  cbn zeta.
  split; [|split; [|split; [|split]]].
  - take_apart st.
    destruct raf as [[|n]|], tts, utter, audio, resolver;
      unfold_engine; repeat split; reflexivity.
  - take_apart st.
    destruct raf as [[|n]|], tts, utter, audio, resolver;
      unfold_engine; repeat split; reflexivity.
  - take_apart st.
    destruct raf as [[|n]|], tts, utter, audio, resolver;
      unfold_engine; reflexivity.
  - take_apart st.
    destruct raf as [[|n]|], tts, utter, audio, resolver;
      unfold_engine; repeat split; reflexivity.
  - intros H. destruct (shutdownPlayback_idle st H) as [(_ & _ & Hp) Hr].
    unfold stopPreview.
    split; [rewrite <- Hp | rewrite <- Hr];
      destruct (shutdownPlayback st); reflexivity.
Qed.

Lemma stopPreview_neutral_witness :
  let props := heyProps calm in
  pendingFrames (stopPreview (mounted props true)) = [].
Proof.
  intros props.
  destruct (stopPreview_neutral (mounted props true)) as (_ & _ & _ & _ & H).
  refine (proj1 (H _)).
  unfold oneClock, mounted. cbn [nextFrameId rafRef pendingFrames].
  split; [lia|]. split; [discriminate | exact I].
Defined.

Lemma exportVideo_null_iff_witness :
  let props := heyProps calm in
  fst (exportVideo browser props 0 noPauses [] [] (alone (mounted props true)))
  = Fulfilled None.
Proof.
  intros props.
  refine (proj2 (proj1 (exportVideo_null_iff browser props 0 noPauses [] []
                          (alone (mounted props true)))) _).
  right. reflexivity.
Defined.

(** X22.  A whole audio preview: with a file loaded, the element present and
    [audio.play()] fulfilling, an audio-mode [startPreview] that nothing
    interleaves with fulfils; from a single-clock state it leaves the
    session playing with exactly one frame pending, the freshly requested
    one, and the element playing with its ended-handler installed.  When the
    audio then ends, the session is shut down: nothing is playing, no frame
    is pending and the element is paused at position 0. *)
Theorem audio_preview_lifecycle (pf : Platform)
    (props : UseLipSyncEngineProps) (options : StartPreviewOptions) (now : R)
    (st : Engine) :
  hasWindow pf = true -> playFulfils pf = true ->
  hasAudioLoaded st = true -> audioRef st <> None ->
  sourceMode options = Some AudioMode ->
  forceRestart options || negb (isSpeaking st) = true ->
  oneClock st ->
  let r := startPreview pf props options now noGaps st in
  let ended := handle props AudioEnded (snd r) in
  fst r = Fulfilled tt
  /\ (isSpeaking (snd r) = true /\ startTimeRef (snd r) = now
      /\ pendingFrames (snd r) = [nextFrameId st]
      /\ rafRef (snd r) = Some (nextFrameId st)
      /\ nextFrameId (snd r) = S (nextFrameId st))
  /\ (exists a, audioRef (snd r) = Some a /\ paused a = false
                /\ onended a = true)
  /\ (isSpeaking ended = false /\ pendingFrames ended = []
      /\ exists a, audioRef ended = Some a /\ paused a = true
                   /\ currentTime a = 0).
Proof.
  intros Hw Hplay Hl Ha Hm Hgo H1. cbn zeta.
  set (r := startPreview pf props options now noGaps st).
  assert (Hstart :
    fst r = Fulfilled tt
    /\ (isSpeaking (snd r) = true /\ startTimeRef (snd r) = now
        /\ pendingFrames (snd r) = [nextFrameId st]
        /\ rafRef (snd r) = Some (nextFrameId st)
        /\ nextFrameId (snd r) = S (nextFrameId st))
    /\ (exists a, audioRef (snd r) = Some a /\ paused a = false
                  /\ onended a = true)).
  { subst r. destruct H1 as (_ & Hr0 & Hp).
    destruct pf as [hw cs rs pl tr]. cbn [hasWindow playFulfils] in Hw, Hplay.
    subst hw pl.
    destruct options as [force src fromExp]. cbn in Hm, Hgo. subst src.
    take_apart st. cbn in Ha, Hgo, Hl, Hr0, Hp. subst loaded.
    destruct audio as [a|]; [clear Ha | congruence].
    unfold startPreview, startPreviewEnter, resume, handleAll.
    cbn [forceRestart sourceMode fromExport noGaps duringResume duringPlay
         fold_left].
    destruct pending as [|x [|y l]]; [| |contradiction].
    - destruct force, speaking; try discriminate Hgo;
        destruct fromExp, raf as [[|n]|], ctx as [[|]|], cs, analyser;
        try congruence; unfold_engine; cbn [remove app];
        (split; [reflexivity|]);
        (split; [repeat split; reflexivity|]);
        eexists; repeat split; reflexivity.
    - subst raf. destruct x as [|n]; [congruence|].
      destruct force, speaking; try discriminate Hgo;
        destruct fromExp, ctx as [[|]|], cs, analyser;
        unfold_engine; rewrite remove_single; cbn [app];
        (split; [reflexivity|]);
        (split; [repeat split; reflexivity|]);
        eexists; repeat split; reflexivity. }
  destruct Hstart as (Hf & (Hs & Ht & Hp & Hr & Hn) & (a & Hau & Hpa & Hon)).
  split; [exact Hf|]. split; [now repeat split|].
  split; [now exists a|].
  assert (H2 : oneClock (snd r)).
  { destruct H1 as (Hn1 & _ & _). unfold oneClock. rewrite Hp, Hr, Hn.
    split; [lia|]. split; [intros [= E]; lia | reflexivity]. }
  cbn [handle]. rewrite Hau, Hon, Hpa. cbn [andb negb].
  destruct (shutdownPlayback_idle (snd r) H2) as [(_ & _ & Hp') _].
  destruct (shutdownPlayback_stops (snd r)) as (Hs' & _ & _ & Ha').
  split; [exact Hs'|]. split; [exact Hp'|].
  destruct (audioRef (shutdownPlayback (snd r))) as [b|]; [now exists b|].
  congruence.
Qed.

Lemma audio_preview_lifecycle_witness :
  let props := heyProps calm in
  let st := loadAudioFile browser (mounted props true) in
  let r := startPreview browser props audioOptions 0 noGaps st in
  fst r = Fulfilled tt
  /\ isSpeaking (snd r) = true
  /\ isSpeaking (handle props AudioEnded (snd r)) = false.
Proof.
  intros props st.
  assert (H1 : oneClock st).
  { unfold oneClock, st, loadAudioFile, mounted.
    cbn. split; [lia|]. split; [discriminate | exact I]. }
  assert (Ha : audioRef st <> None) by discriminate.
  destruct (audio_preview_lifecycle browser props audioOptions 0 st
              eq_refl eq_refl eq_refl Ha eq_refl eq_refl H1)
    as (Hf & (Hs & _) & _ & (He & _)).
  exact (conj Hf (conj Hs He)).
Defined.

Lemma findIndexFrom_between (l : list VisemeFrame) :
  timeIncreasing l ->
  forall i p c k e,
    nth_error l i = Some p -> nth_error l (S i) = Some c ->
    time p < e <= time c ->
    findIndexFrom (fun frame => geb (time frame) e) k l
    = (k + Z.of_nat (S i))%Z.
Proof.
  induction 1 as [|x l Hl IH Hx]; intros i p c k e Hp Hc He.
  - destruct i; discriminate.
  - destruct i as [|i]; cbn [nth_error] in Hp, Hc; cbn [findIndexFrom].
    + injection Hp as <-. rewrite geb_false by lra.
      destruct l as [|y l]; [discriminate|]. cbn in Hc. injection Hc as <-.
      cbn [findIndexFrom]. rewrite geb_true by lra. lia.
    + rewrite Forall_forall in Hx.
      assert (time x < time p) by (apply Hx; now apply nth_error_In in Hp).
      rewrite geb_false by lra.
      rewrite (IH i p c (k + 1)%Z e Hp Hc He). lia.
Qed.

(** X24.  Between two neighbouring frames of a timeline with strictly
    increasing times the sample is the linear interpolation of the two, by
    the fraction of the interval that has elapsed. *)
Theorem sampleViseme_interpolates (timeline : list VisemeFrame) (i : nat)
    (p c : VisemeFrame) (elapsed : R) :
  timeIncreasing timeline ->
  nth_error timeline i = Some p -> nth_error timeline (S i) = Some c ->
  time p < elapsed <= time c ->
  let weight := (elapsed - time p) / (time c - time p) in
  sampleViseme timeline elapsed
  = {| visemeMouth := mouth p + (mouth c - mouth p) * weight;
       visemeWidth := width p + (width c - width p) * weight |}.
Proof.
  intros Hinc Hp Hc He weight.
  assert (Hpc : time p < time c) by lra.
  assert (Hw : 0 <= weight <= 1).
  { unfold weight. split.
    - apply Rmult_le_pos; [lra|]. left. apply Rinv_0_lt_compat. lra.
    - apply Rmult_le_reg_r with (time c - time p); [lra|].
      unfold Rdiv. rewrite Rmult_assoc, Rinv_l by lra. lra. }
  assert (Hlen : (S i < List.length timeline)%nat)
    by (apply nth_error_Some; congruence).
  unfold sampleViseme.
  destruct (lastFrame timeline) as [final|] eqn:Hlast.
  2:{ unfold lastFrame in Hlast. apply nth_error_None in Hlast. lia. }
  unfold lastFrame in Hlast.
  destruct (Rle_dec (time final) elapsed) as [Hge | Hlt].
  - rewrite (geb_true _ _ Hge).
    assert (Hfin : c = final).
    { destruct (Nat.eq_dec (S i) (List.length timeline - 1)) as [E | Hne];
        [congruence|].
      assert (time c < time final)
        by (apply (increasing_nth timeline Hinc (S i)
                     (List.length timeline - 1)); [lia | assumption | assumption]).
      lra. }
    subst final.
    assert (Hw1 : weight = 1).
    { unfold weight. replace elapsed with (time c) by lra. field. lra. }
    rewrite Hw1. unfold visemeOf. f_equal; ring.
  - rewrite geb_false by lra.
    unfold findIndex.
    rewrite (findIndexFrom_between timeline Hinc i p c 0 elapsed Hp Hc He).
    replace (0 + Z.of_nat (S i) <=? 0)%Z with false
      by (symmetry; apply Z.leb_gt; lia).
    replace (Z.to_nat (0 + Z.of_nat (S i) - 1)) with i by lia.
    replace (Z.to_nat (0 + Z.of_nat (S i))) with (S i) by lia.
    rewrite (nth_error_nth timeline i final Hp).
    rewrite (nth_error_nth timeline (S i) final Hc).
    assert (Hs : orOne (time c - time p) = time c - time p).
    { unfold orOne, truthy. destruct (Req_dec_T _ 0); [lra | reflexivity]. }
    rewrite Hs. fold weight. now rewrite clamp_id.
Qed.

Lemma sampleViseme_interpolates_witness :
  sampleViseme
    [{| time := 0; mouth := 0.2; width := 0.3 |};
     {| time := 1; mouth := 0.6; width := 0.5 |}] 0.5
  = {| visemeMouth := 0.2 + (0.6 - 0.2) * ((0.5 - 0) / (1 - 0));
       visemeWidth := 0.3 + (0.5 - 0.3) * ((0.5 - 0) / (1 - 0)) |}.
Proof.
  apply (sampleViseme_interpolates _ 0
           {| time := 0; mouth := 0.2; width := 0.3 |}
           {| time := 1; mouth := 0.6; width := 0.5 |} 0.5).
  - unfold timeIncreasing. repeat constructor; cbn; lra.
  - reflexivity.
  - reflexivity.
  - cbn. lra.
Defined.

(** X25.  Secondary motion does not depend on the driver: at a given
    timestamp and generator state, the blink, head pitch, head roll and gaze
    channels, and the state the generator is left in, are the same whatever
    mouth signal is composed. *)
Theorem secondary_motion_ignores_driver (props : UseLipSyncEngineProps)
    (timestamp : R) (v1 v2 : Viseme) (value : R) :
  let a := composePose props timestamp v1 value in
  let b := composePose props timestamp v2 value in
  snd a = snd b
  /\ blink (fst a) = blink (fst b)
  /\ headPitch (fst a) = headPitch (fst b)
  /\ headRoll (fst a) = headRoll (fst b)
  /\ gazeX (fst a) = gazeX (fst b)
  /\ gazeY (fst a) = gazeY (fst b).
Proof.
  cbn zeta. unfold composePose. rewrite !bind_run. unfold ret.
  cbn [fst snd blink headPitch headRoll gazeX gazeY].
  split; [|split; [|split; [|split; [|split]]]]; reflexivity.
Qed.

(** ** Export: when the promise rejects or stays pending *)

Lemma shutdownPlayback_element (st : Engine) :
  hasElement (shutdownPlayback st) = hasElement st.
Proof.
  take_apart st.
  destruct raf as [[|n]|], tts, utter, audio, resolver;
    unfold hasElement; unfold_engine; reflexivity.
Qed.

Lemma updateLoop_element (props : UseLipSyncEngineProps) (timestamp : R)
    (samples : list Z) (st : Engine) :
  hasElement (updateLoop props timestamp samples st) = hasElement st.
Proof.
  unfold updateLoop.
  destruct (driverSignal props timestamp samples st) as [v|].
  - destruct (composePose props timestamp v (randomRef st)) as [pose value'].
    destruct st; reflexivity.
  - apply shutdownPlayback_element.
Qed.

Lemma handle_element (props : UseLipSyncEngineProps) (ev : Event)
    (st : Engine) :
  hasElement (handle props ev st) = hasElement st.
Proof.
  destruct ev as [id timestamp samples| | |]; cbn [handle].
  - destruct (memId id (pendingFrames st)); [|reflexivity].
    rewrite updateLoop_element. destruct st; reflexivity.
  - destruct (speechQueue st) as [|u q] eqn:E; [reflexivity|].
    rewrite shutdownPlayback_element. destruct st; reflexivity.
  - destruct (audioRef st) as [a|] eqn:E; [|reflexivity].
    destruct (onended a && negb (paused a)); [|reflexivity].
    apply shutdownPlayback_element.
  - unfold stopPreview.
    rewrite <- (shutdownPlayback_element st).
    destruct (shutdownPlayback st); reflexivity.
Qed.

Lemma startPreviewEnter_element (pf : Platform) (props : UseLipSyncEngineProps)
    (options : StartPreviewOptions) (now : R) (st : Engine) :
  hasElement (snd (startPreviewEnter pf props options now st)) = hasElement st.
Proof.
  destruct pf as [hw cs rs pl tr].
  destruct options as [force src fromExp].
  take_apart st.
  unfold startPreviewEnter, hasElement.
  cbn [forceRestart sourceMode fromExport].
  destruct src as [[|]|], mode, force, speaking, fromExp, raf as [[|n]|], hw,
           audio as [a|], loaded, ctx as [[|]|], cs, analyser, tts, utter;
    unfold_engine; reflexivity.
Qed.

Lemma resume_element (k : Suspension) (st : Engine) :
  hasElement (snd (resume k st)) = hasElement st.
Proof.
  take_apart st. unfold hasElement.
  destruct k, audio as [a|], raf as [[|n]|]; unfold_engine; reflexivity.
Qed.

Lemma act_element (pf : Platform) (props : UseLipSyncEngineProps) (a : Action)
    (w : World) :
  hasElement (engine (act pf props a w)) = hasElement (engine w).
Proof.
  destruct a as [options now | n | ev].
  - rewrite engine_act_call. apply startPreviewEnter_element.
  - cbn [act]. destruct (nth_error (suspended w) n) as [k|]; [|reflexivity].
    pose proof (resume_element k (engine w)) as H.
    destruct (resume k (engine w)) as [k' st]. exact H.
  - rewrite engine_act_occur. apply handle_element.
Qed.

Lemma beginExport_element (pf : Platform) (props : UseLipSyncEngineProps)
    (now : R) (w : World) :
  hasElement (engine (beginExport pf props now w)) = hasElement (engine w).
Proof.
  unfold beginExport. destruct (reachesRecorder pf (engine w)); [|reflexivity].
  pose proof (startPreviewEnter_element pf props exportOptions now
                (set_exportSettled false
                   (set_exportResolveRef true (engine w)))) as H.
  destruct (startPreviewEnter pf props exportOptions now _) as [k st].
  cbn [snd] in H. cbn [engine]. rewrite H. destruct (engine w); reflexivity.
Qed.

Lemma stepAll_element (pf : Platform) (props : UseLipSyncEngineProps)
    (l : list Step) (rw : Resolver * World) :
  hasElement (engine (snd (stepAll pf props l rw))) = hasElement (engine (snd rw)).
Proof.
  unfold stepAll. revert rw.
  induction l as [|s l IH]; intros [r w]; cbn [fold_left]; [reflexivity|].
  rewrite IH. destruct s as [a | now |]; cbn [step snd].
  - apply act_element.
  - apply beginExport_element.
  - apply shutdownPlayback_element.
Qed.

(** Once another export has overwritten the resolver, no later step changes
    what the first call's promise is. *)
Lemma stepAll_overwritten (pf : Platform) (props : UseLipSyncEngineProps)
    (l : list Step) (settled : bool) (w : World) :
  fst (stepAll pf props l (Overwritten settled, w)) = Overwritten settled.
Proof.
  unfold stepAll. revert w.
  induction l as [|s l IH]; intros w; cbn [fold_left]; [reflexivity|].
  destruct s as [a | now |]; cbn [step]; apply IH.
Qed.

(** An export's own text-mode start returns at once and leaves the promise
    and the canvas as they are. *)
Lemma export_text_start (pf : Platform) (props : UseLipSyncEngineProps)
    (now : R) (st : Engine) :
  modeRef st = TextMode ->
  let r := startPreviewEnter pf props exportOptions now st in
  fst r = Returned
  /\ exportSettled (snd r) = exportSettled st
  /\ stageCanvasRef (snd r) = stageCanvasRef st.
Proof.
  intros Hm. cbn zeta. destruct pf as [hw cs rs pl tr].
  take_apart st. cbn in Hm. subst mode.
  unfold startPreviewEnter, exportOptions.
  cbn [forceRestart sourceMode fromExport].
  destruct speaking, raf as [[|n]|], tts, utter;
    unfold_engine; repeat split; reflexivity.
Qed.

(** An export's own audio-mode start, with a file loaded and an audio
    element, waits for the context or for [audio.play()]. *)
Lemma export_audio_start (pf : Platform) (props : UseLipSyncEngineProps)
    (now : R) (st : Engine) :
  hasWindow pf = true -> modeRef st = AudioMode ->
  hasAudioLoaded st = true -> hasElement st = true ->
  fst (startPreviewEnter pf props exportOptions now st) = AwaitPlay
  \/ fst (startPreviewEnter pf props exportOptions now st) = AwaitResume.
Proof.
  intros Hw Hm Hl He. destruct pf as [hw cs rs pl tr].
  take_apart st. unfold hasElement in He. cbn in Hw, Hm, Hl, He.
  subst hw mode loaded. destruct audio as [a|]; [|discriminate He].
  unfold startPreviewEnter, exportOptions.
  cbn [forceRestart sourceMode fromExport].
  destruct speaking, raf as [[|n]|], ctx as [[|]|], cs, analyser;
    unfold_engine; auto.
Qed.

(** X26.  A second call of [exportVideo] made while a first one is in its
    capture window leaves the first one pending for ever: in text mode, when
    the second call begins before anything else happens in the window, the
    first call's promise is never settled, whatever happens afterwards. *)
Theorem second_export_orphans_first (pf : Platform)
    (props : UseLipSyncEngineProps) (now now' : R) (pauses : Pauses)
    (rest : list Step) (recorded : list nat) (w : World) :
  hasWindow pf = true -> stageCanvasRef (engine w) = true ->
  recorderSupported pf = true -> modeRef (engine w) = TextMode ->
  fst (exportVideo pf props now pauses (Export now' :: rest) recorded w)
  = NeverSettles.
Proof.
  intros Hw Hc Hrec Hm. unfold exportVideo.
  rewrite Hw, Hc, Hrec. cbn [negb].
  set (st1 := set_exportSettled false (set_exportResolveRef true (engine w))).
  assert (Hm1 : modeRef st1 = TextMode)
    by (unfold st1; destruct (engine w); exact Hm).
  assert (Hc1 : stageCanvasRef st1 = true)
    by (unfold st1; destruct (engine w); exact Hc).
  assert (Hs1 : exportSettled st1 = false)
    by (unfold st1; destruct (engine w); reflexivity).
  destruct (export_text_start pf props now st1 Hm1) as (Hr & Hs & Hcv).
  unfold awaitStartPreview. cbn [withEngine engine].
  destruct (startPreviewEnter pf props exportOptions now st1) as [k st2].
  cbn [fst snd] in Hr, Hs, Hcv. subst k.
  unfold stepAll. cbn [fold_left step]. unfold reachesRecorder.
  set (w2 := withEngine st2 (withEngine st1 w)).
  change (engine w2) with st2.
  rewrite Hw, Hcv, Hc1, Hrec, Hs, Hs1. cbn [andb].
  pose proof (stepAll_overwritten pf props rest false
                (beginExport pf props now' w2)) as Ho.
  unfold stepAll in Ho.
  destruct (fold_left _ rest _) as [r3 w3]. cbn [fst] in Ho. subst r3.
  reflexivity.
Qed.

Lemma second_export_orphans_first_witness :
  fst (exportVideo browser (heyProps calm) 0 noPauses
         [Export 100; Do (Occur StopPreview); Shutdown] [4%nat]
         (alone (registerStageCanvas true (mounted (heyProps calm) true))))
  = NeverSettles.
Proof.
  exact (second_export_orphans_first browser (heyProps calm) 0 100 noPauses
           [Do (Occur StopPreview); Shutdown] [4%nat]
           (alone (registerStageCanvas true (mounted (heyProps calm) true)))
           eq_refl eq_refl eq_refl eq_refl).
Defined.

(** X27.  [exportVideo] rejects, with a window and a registered stage canvas,
    when the recorder cannot be constructed (and then nothing has been
    touched), and when, in audio mode with a file loaded and an audio
    element, [audio.play()] rejects, whatever happens while the call
    waits. *)
Theorem exportVideo_rejects_when (pf : Platform)
    (props : UseLipSyncEngineProps) (now : R) (pauses : Pauses)
    (window : list Step) (recorded : list nat) (w : World) :
  hasWindow pf = true -> stageCanvasRef (engine w) = true ->
  let r := exportVideo pf props now pauses window recorded w in
  (recorderSupported pf = false -> fst r = Rejected /\ snd r = w)
  /\ (recorderSupported pf = true -> modeRef (engine w) = AudioMode ->
      hasAudioLoaded (engine w) = true -> hasElement (engine w) = true ->
      playFulfils pf = false -> fst r = Rejected).
Proof.
  intros Hw Hc. cbn zeta. unfold exportVideo. rewrite Hw, Hc. cbn [negb].
  split.
  - intros ->. cbn [negb]. now split.
  - intros -> Hm Hl He Hp. cbn [negb].
    set (st1 := set_exportSettled false (set_exportResolveRef true (engine w))).
    assert (Hm1 : modeRef st1 = AudioMode)
      by (unfold st1; destruct (engine w); exact Hm).
    assert (Hl1 : hasAudioLoaded st1 = true)
      by (unfold st1; destruct (engine w); exact Hl).
    assert (He1 : hasElement st1 = true)
      by (unfold st1; destruct (engine w); exact He).
    pose proof (export_audio_start pf props now st1 Hw Hm1 Hl1 He1) as Hk.
    pose proof (startPreviewEnter_element pf props exportOptions now st1) as He2.
    unfold awaitStartPreview. cbn [withEngine engine]. rewrite Hp.
    destruct (startPreviewEnter pf props exportOptions now st1) as [k st2].
    cbn [fst snd] in Hk, He2. rewrite He1 in He2.
    destruct Hk as [-> | ->]; [reflexivity|].
    set (rw := stepAll pf props (whileResuming pauses) _).
    assert (He3 : hasElement (engine (snd rw)) = true)
      by (unfold rw; rewrite stepAll_element; exact He2).
    cbn [resume]. unfold startPreviewPlay, hasElement in *.
    destruct (engine (snd rw)) as [pose speaking loaded tts mode raf start tline
      tdur resolver audio ctx analyser data canvas rnd utter pending next
      queue settled].
    cbn in He3. destruct audio as [a|]; [|discriminate He3].
    unfold_engine. reflexivity.
Qed.

Lemma exportVideo_rejects_when_witness :
  fst (exportVideo rejecting (heyProps calm) 9 noPauses
         [Do (Occur StopPreview)] [5%nat]
         (alone (audioStage rejecting (heyProps calm))))
  = Rejected.
Proof.
  exact (proj2 (exportVideo_rejects_when rejecting (heyProps calm) 9 noPauses
                  [Do (Occur StopPreview)] [5%nat]
                  (alone (audioStage rejecting (heyProps calm)))
                  eq_refl eq_refl)
           eq_refl eq_refl eq_refl eq_refl eq_refl).
Defined.
